(** * Lead fraud scoring: a shallow embedding of [SimpleFraudScorer]

    The definitions below follow [fraud_scorer_sample.py] function by
    function.  Python values are modelled as follows.

    - A [str] is a Rocq [string]; its characters are the code points
      0..255 (Latin-1), which is what the character tests below decide.
    - A lead (a [dict] from field names to strings) is a
      [gmap string string]; [lead.get(k, '')] is [get lead k].
    - [defaultdict(int)] is a [gmap string nat] read with default 0, and
      the [set] of fingerprint hashes is a [gset string].
    - The scorer object's mutable attributes are threaded explicitly: a
      method that mutates [self] returns the new tracker next to its
      result.
    - [hashlib.md5(..).hexdigest()] is a parameter of the development.
    - The percentages of [calculate_batch_refund] are Python floats; they
      are modelled by exact rationals ([Q]). *)

From Stdlib Require Import ZArith QArith Ascii String List Bool Lia.
From stdpp Require Import gmap strings list.

Local Open Scope string_scope.

(** ** Characters and strings as Python sees them *)

Module PyStr.

Definition code (c : ascii) : N := N_of_ascii c.

Definition in_range (lo hi : N) (c : ascii) : bool :=
  ((lo <=? code c) && (code c <=? hi))%N.

(** [\d] of the [re] module on [str]: the decimal digits. *)
Definition re_digit (c : ascii) : bool := in_range 48 57 c.

(** [[a-zA-Z]] *)
Definition re_alpha (c : ascii) : bool :=
  in_range 97 122 c || in_range 65 90 c.

(** [str.isdigit]: the decimal digits and the superscripts 1, 2, 3. *)
Definition isdigit (c : ascii) : bool :=
  in_range 48 57 c || (code c =? 178)%N || (code c =? 179)%N
  || (code c =? 185)%N.

(** [str.isspace], the characters removed by [str.strip()]. *)
Definition isspace (c : ascii) : bool :=
  in_range 9 13 c || in_range 28 32 c || (code c =? 133)%N
  || (code c =? 160)%N.

(** [str.lower] on one character. *)
Definition lower_char (c : ascii) : ascii :=
  if in_range 65 90 c
     || (in_range 192 222 c && negb (code c =? 215)%N)
  then ascii_of_N (code c + 32) else c.

Fixpoint lower (s : string) : string :=
  match s with
  | EmptyString => EmptyString
  | String c r => String (lower_char c) (lower r)
  end.

Fixpoint lstrip (s : string) : string :=
  match s with
  | EmptyString => EmptyString
  | String c r => if isspace c then lstrip r else s
  end.

Fixpoint rstrip (s : string) : string :=
  match s with
  | EmptyString => EmptyString
  | String c r =>
      match rstrip r with
      | EmptyString => if isspace c then EmptyString else String c EmptyString
      | r' => String c r'
      end
  end.

Definition strip (s : string) : string := rstrip (lstrip s).

(** Truthiness of a string: [not s] holds exactly for the empty one. *)
Definition truthy (s : string) : bool :=
  match s with EmptyString => false | String _ _ => true end.

(** [re.sub(cls, '', s)] for a one-character class. *)
Fixpoint remove_all (cls : ascii -> bool) (s : string) : string :=
  match s with
  | EmptyString => EmptyString
  | String c r => if cls c then remove_all cls r else String c (remove_all cls r)
  end.

(** [s.split(sep)] for a one-character separator. *)
Fixpoint split (sep : ascii) (s : string) : list string :=
  match s with
  | EmptyString => [EmptyString]
  | String c r =>
      if Ascii.eqb c sep then EmptyString :: split sep r
      else match split sep r with
           | h :: t => String c h :: t
           | [] => [String c EmptyString]
           end
  end.

(** [any(p(ch) for ch in s)] *)
Fixpoint any (p : ascii -> bool) (s : string) : bool :=
  match s with
  | EmptyString => false
  | String c r => p c || any p r
  end.

Fixpoint startswith (sub s : string) : bool :=
  match sub, s with
  | EmptyString, _ => true
  | String _ _, EmptyString => false
  | String a sub', String b s' => Ascii.eqb a b && startswith sub' s'
  end.

(** [sub in s] *)
Fixpoint contains (sub s : string) : bool :=
  startswith sub s
  || match s with
     | EmptyString => false
     | String _ r => contains sub r
     end.

(** [sep.join(l)] *)
Fixpoint join (sep : string) (l : list string) : string :=
  match l with
  | [] => EmptyString
  | [x] => x
  | x :: xs => x ++ sep ++ join sep xs
  end.

End PyStr.

(** ** Regular expressions, as far as [validate_email_format] needs them *)

Module Re.

Inductive regex : Type :=
| Void : regex
| Eps : regex
| Class : (ascii -> bool) -> regex
| Cat : regex -> regex -> regex
| Alt : regex -> regex -> regex
| Star : regex -> regex.

Definition Plus (r : regex) : regex := Cat r (Star r).
Definition Lit (c : ascii) : regex := Class (Ascii.eqb c).

Fixpoint nullable (r : regex) : bool :=
  match r with
  | Void => false
  | Eps => true
  | Class _ => false
  | Cat a b => nullable a && nullable b
  | Alt a b => nullable a || nullable b
  | Star _ => true
  end.

Fixpoint deriv (c : ascii) (r : regex) : regex :=
  match r with
  | Void => Void
  | Eps => Void
  | Class p => if p c then Eps else Void
  | Cat a b =>
      if nullable a then Alt (Cat (deriv c a) b) (deriv c b)
      else Cat (deriv c a) b
  | Alt a b => Alt (deriv c a) (deriv c b)
  | Star a => Cat (deriv c a) (Star a)
  end.

(** The whole of [s] is a word of [r]. *)
Fixpoint fullmatch (r : regex) (s : string) : bool :=
  match s with
  | EmptyString => nullable r
  | String c s' => fullmatch (deriv c r) s'
  end.

Fixpoint drop_final_newline (s : string) : option string :=
  match s with
  | EmptyString => None
  | String c EmptyString => if Ascii.eqb c "010" then Some EmptyString else None
  | String c r => option_map (String c) (drop_final_newline r)
  end.

(** [bool(re.match('^' r '$', s))]: [$] is satisfied at the end of the
    string and also just before a newline that ends the string. *)
Definition match_anchored (r : regex) (s : string) : bool :=
  fullmatch r s
  || match drop_final_newline s with
     | Some s' => fullmatch r s'
     | None => false
     end.

End Re.

(** ** The scorer *)

Import PyStr.

(** [lead.get(key, '')] *)
Definition get (lead : gmap string string) (key : string) : string :=
  default EmptyString (lead !! key).

(** [d[key]] on a [defaultdict(int)] *)
Definition count_of (d : gmap string nat) (key : string) : nat :=
  default 0%nat (d !! key).

Definition disposable_domains : gset string :=
  {[ "guerrillamail.com"; "temp-mail.org"; "10minutemail.com";
     "mailinator.com"; "throwaway.email"; "tempmail.com";
     "getnada.com"; "maildrop.cc"; "yopmail.com"; "fakeinbox.com";
     "emailondeck.com"; "throwawaymail.com"; "trashmail.com";
     "sharklasers.com"; "spam4.me"; "tempr.email" ]}.

Definition gibberish_patterns : gset string :=
  {[ "asdfgh"; "qwerty"; "zxcvbn"; "test test"; "test";
     "fake"; "xxx"; "aaa"; "zzz"; "nnn"; "111"; "123"; "abc" ]}.

Definition validate_phone_format (phone : string) : bool :=
  if negb (truthy phone) then false
  else
    let digits := remove_all (fun c => negb (re_digit c)) phone in
    if (String.length digits =? 10)%nat || (String.length digits =? 11)%nat
    then true
    else false.

(** [[a-zA-Z0-9._%+-]] *)
Definition local_part_char (c : ascii) : bool :=
  re_alpha c || re_digit c
  || Ascii.eqb c "." || Ascii.eqb c "_" || Ascii.eqb c "%"
  || Ascii.eqb c "+" || Ascii.eqb c "-".

(** [[a-zA-Z0-9.-]] *)
Definition domain_char (c : ascii) : bool :=
  re_alpha c || re_digit c || Ascii.eqb c "." || Ascii.eqb c "-".

(** [[a-zA-Z0-9._%+-]+@[a-zA-Z0-9.-]+\.[a-zA-Z]{2,}] *)
Definition email_pattern : Re.regex :=
  Re.Cat (Re.Plus (Re.Class local_part_char))
    (Re.Cat (Re.Lit "@")
       (Re.Cat (Re.Plus (Re.Class domain_char))
          (Re.Cat (Re.Lit ".")
             (Re.Cat (Re.Class re_alpha)
                (Re.Cat (Re.Class re_alpha) (Re.Star (Re.Class re_alpha))))))).

Definition validate_email_format (email : string) : bool :=
  if negb (truthy email) then false
  else Re.match_anchored email_pattern email.

Definition is_disposable_email (email : string) : bool :=
  if negb (truthy email) then false
  else
    let domain := lower (List.last (split "@" email) EmptyString) in
    bool_decide (domain ∈ disposable_domains).

Definition is_gibberish_name (name : string) : bool :=
  if negb (truthy name) then true
  else
    let name_lower := strip (lower name) in
    if bool_decide (name_lower ∈ gibberish_patterns) then true
    else if (String.length name_lower <=? 1)%nat then true
    else if any isdigit name_lower then true
    else false.

(** The mutable attributes of the scorer object. *)
Record tracker : Type := Tracker {
  seen_phones : gmap string nat;
  seen_emails : gmap string nat;
  seen_hashes : gset string
}.

(** The tracker of a scorer just built by [__init__]. *)
Definition new_tracker : tracker :=
  {| seen_phones := ∅; seen_emails := ∅; seen_hashes := ∅ |}.

(** [d[key] += 1] on a [defaultdict(int)] *)
Definition incr (d : gmap string nat) (key : string) : gmap string nat :=
  <[key := S (count_of d key)]> d.

Definition check_repeated_contact (self : tracker) (lead : gmap string string)
  : (bool * bool) * tracker :=
  let phone := get lead "phone" in
  let email := get lead "email" in
  let phones := incr (seen_phones self) phone in
  let emails := incr (seen_emails self) email in
  let repeated_phone := (3 <=? count_of phones phone)%nat in
  let repeated_email := (3 <=? count_of emails email)%nat in
  ((repeated_phone, repeated_email),
   {| seen_phones := phones; seen_emails := emails;
      seen_hashes := seen_hashes self |}).

(** The breakdown dictionary of one result. *)
Record breakdown : Type := Breakdown {
  contact : Z;
  duplicate : Z;
  geographic : Z;
  timing : Z;
  quality : Z
}.

Inductive category : Type := Contact | Duplicate | Quality.

Definition add_to (cat : category) (pts : Z) (b : breakdown) : breakdown :=
  match cat with
  | Contact =>
      {| contact := contact b + pts; duplicate := duplicate b;
         geographic := geographic b; timing := timing b; quality := quality b |}
  | Duplicate =>
      {| contact := contact b; duplicate := duplicate b + pts;
         geographic := geographic b; timing := timing b; quality := quality b |}
  | Quality =>
      {| contact := contact b; duplicate := duplicate b;
         geographic := geographic b; timing := timing b;
         quality := quality b + pts |}
  end.

(** [breakdown[cat] = min(breakdown[cat], limit)] *)
Definition cap (cat : category) (limit : Z) (b : breakdown) : breakdown :=
  match cat with
  | Contact =>
      {| contact := Z.min (contact b) limit; duplicate := duplicate b;
         geographic := geographic b; timing := timing b; quality := quality b |}
  | Duplicate =>
      {| contact := contact b; duplicate := Z.min (duplicate b) limit;
         geographic := geographic b; timing := timing b; quality := quality b |}
  | Quality =>
      {| contact := contact b; duplicate := duplicate b;
         geographic := geographic b; timing := timing b;
         quality := Z.min (quality b) limit |}
  end.

(** The three local variables [score], [reasons], [breakdown] of
    [score_lead]. *)
Record locals : Type := Locals {
  score : Z;
  reasons : list string;
  bd : breakdown
}.

Definition locals0 : locals :=
  {| score := 0; reasons := [];
     bd := {| contact := 0; duplicate := 0; geographic := 0; timing := 0;
              quality := 0 |} |}.

(** [score += pts; breakdown[cat] += pts; reasons.append(reason)] *)
Definition award (cat : category) (pts : Z) (reason : string) (l : locals)
  : locals :=
  {| score := score l + pts;
     reasons := reasons l ++ [reason];
     bd := add_to cat pts (bd l) |}.

Definition cap_locals (cat : category) (limit : Z) (l : locals) : locals :=
  {| score := score l; reasons := reasons l; bd := cap cat limit (bd l) |}.

Record ScoreResult : Type := Result {
  fraud_score : Z;
  classification : string;
  is_fraudulent : bool;
  result_reasons : list string;
  result_breakdown : breakdown
}.

(** The phone validation of [score_lead]. *)
Definition phone_step (phone : string) (l : locals) : locals :=
  if negb (truthy phone) then award Contact 10 "Missing phone number" l
  else if negb (validate_phone_format phone)
       then award Contact 10 "Invalid phone format" l
  else l.

(** The email validation of [score_lead]. *)
Definition email_step (email : string) (l : locals) : locals :=
  if negb (truthy email) then award Contact 10 "Missing email address" l
  else if negb (validate_email_format email)
       then award Contact 10 "Invalid email format" l
  else if is_disposable_email email
       then award Contact 10 "Disposable email domain" l
  else l.

Definition repeated_step (repeated_phone repeated_email : bool) (l : locals)
  : locals :=
  let l := if repeated_phone
           then award Contact 10 "Phone number repeated 3+ times" l else l in
  if repeated_email then award Contact 10 "Email repeated 3+ times" l else l.

Definition duplicate_step (dup : bool) (l : locals) : locals :=
  if dup then award Duplicate 15 "Exact duplicate detected" l else l.

Definition name_step (name : string) (l : locals) : locals :=
  if negb (truthy name) || is_gibberish_name name
  then award Quality 10 "Invalid or gibberish name" l
  else l.

(** The check for missing critical fields of [score_lead]. *)
Definition missing_fields_step (name email phone : string) (l : locals)
  : locals :=
  if negb (truthy name) || negb (truthy email) || negb (truthy phone)
  then
    if negb (contains "Missing" (join " " (reasons l)))
    then award Quality 10 "Missing critical fields" l
    else l
  else l.

(** The classification at the end of [score_lead] and the returned
    dictionary. *)
Definition classify (l : locals) : ScoreResult :=
  if (50 <=? score l)%Z then
    {| fraud_score := score l; classification := "FRAUDULENT";
       is_fraudulent := true; result_reasons := reasons l;
       result_breakdown := bd l |}
  else if (25 <=? score l)%Z then
    {| fraud_score := score l; classification := "SUSPICIOUS";
       is_fraudulent := false; result_reasons := reasons l;
       result_breakdown := bd l |}
  else
    {| fraud_score := score l; classification := "VALID";
       is_fraudulent := false; result_reasons := reasons l;
       result_breakdown := bd l |}.

Section Scorer.

(** [hashlib.md5(s.encode()).hexdigest()] *)
Variable md5_hexdigest : string -> string.

Definition fingerprint (lead : gmap string string) : string :=
  get lead "name" ++ "|" ++ get lead "email" ++ "|" ++ get lead "phone".

Definition find_exact_duplicate (self : tracker) (lead : gmap string string)
  : bool * tracker :=
  let hash_string := fingerprint lead in
  let lead_hash := md5_hexdigest hash_string in
  if bool_decide (lead_hash ∈ seen_hashes self) then (true, self)
  else
    (false,
     {| seen_phones := seen_phones self; seen_emails := seen_emails self;
        seen_hashes := seen_hashes self ∪ {[ lead_hash ]} |}).

(** [score_lead] up to and including the name check: the locals at the
    point where the missing-fields check reads [reasons]. *)
Definition score_lead_upto_name (self : tracker) (lead : gmap string string)
  : locals * tracker :=
  let l := locals0 in
  let phone := get lead "phone" in
  let l := phone_step phone l in
  let email := get lead "email" in
  let l := email_step email l in
  let '((repeated_phone, repeated_email), self) :=
    check_repeated_contact self lead in
  let l := repeated_step repeated_phone repeated_email l in
  let l := cap_locals Contact 40 l in
  let '(dup, self) := find_exact_duplicate self lead in
  let l := duplicate_step dup l in
  let l := cap_locals Duplicate 25 l in
  let name := get lead "name" in
  let l := name_step name l in
  (l, self).

Definition score_lead (self : tracker) (lead : gmap string string)
  : ScoreResult * tracker :=
  let '(l, self) := score_lead_upto_name self lead in
  let l := missing_fields_step (get lead "name") (get lead "email")
             (get lead "phone") l in
  let l := cap_locals Quality 10 l in
  (classify l, self).

End Scorer.

(** [for lead in leads: results.append(method(lead))]: one method of the
    scorer applied to the leads of a batch in order, every call seeing the
    tracker as the previous call left it. *)
Fixpoint run_batch {A : Type}
  (method : tracker -> gmap string string -> A * tracker)
  (self : tracker) (leads : list (gmap string string))
  : list A * tracker :=
  match leads with
  | [] => ([], self)
  | lead :: rest =>
      let '(r, self) := method self lead in
      let '(rs, self) := run_batch method self rest in
      (r :: rs, self)
  end.

(** The scoring loop of [main]. *)
Definition score_all (md5_hexdigest : string -> string) :=
  run_batch (score_lead md5_hexdigest).

(** ** The batch refund *)

(** Exceptions: the one a division raises, and the one a guard on the
    arguments would raise with its message. *)
Inductive exn : Type :=
| ZeroDivisionError : exn
| ValueError : string -> exn.

(** [a / b] on two [int]s *)
Definition truediv (a b : Z) : exn + Q :=
  if (b =? 0)%Z then inl ZeroDivisionError
  else inr (inject_Z a / inject_Z b)%Q.

Record RefundInfo : Type := Refund {
  refund_type : string;
  refund_percentage : Q;
  fraud_percentage : Q;
  fraudulent_leads : Z;
  valid_leads : Z;
  total_leads : Z
}.

Definition calculate_batch_refund (leads_df : list ScoreResult)
  : exn + RefundInfo :=
  let total := Z.of_nat (length leads_df) in
  let fraudulent := Z.of_nat (length (List.filter is_fraudulent leads_df)) in
  match truediv fraudulent total with
  | inl e => inl e
  | inr ratio =>
      let fraud_pct := (ratio * 100)%Q in
      let '(rtype, rpct) :=
        if Qle_bool 25 fraud_pct then ("FULL REFUND", 100%Q)
        else if Qle_bool 15 fraud_pct then ("PARTIAL REFUND", fraud_pct)
        else ("NO REFUND", 0%Q) in
      inr {| refund_type := rtype;
             refund_percentage := rpct;
             fraud_percentage := fraud_pct;
             fraudulent_leads := fraudulent;
             valid_leads := total - fraudulent;
             total_leads := total |}
  end.

(** ** Vocabulary of the statements *)

(** A stand-in for the digest, injective, to run the scorer on examples. *)
Definition plain_digest (s : string) : string := s.

Definition lead_of (name email phone : string) : gmap string string :=
  {[ "name" := name; "email" := email; "phone" := phone ]}.

(** The points of the award that records a given reason: every award of
    [score_lead] appends exactly one reason. *)
Definition award_points (reason : string) : Z :=
  if String.eqb reason "Exact duplicate detected" then 15 else 10.

Fixpoint total_points (rs : list string) : Z :=
  match rs with
  | [] => 0
  | r :: rs' => award_points r + total_points rs'
  end.

(** The number of rows whose [is_fraudulent] column is [True]. *)
Definition fraud_count (leads_df : list ScoreResult) : Z :=
  Z.of_nat (count_occ bool_dec (map is_fraudulent leads_df) true).

(** The number of leads of [leads] that carry the same value as [lead]
    in field [key]. *)
Definition occurrences (key : string) (lead : gmap string string)
  (leads : list (gmap string string)) : nat :=
  length (List.filter (fun l' => String.eqb (get l' key) (get lead key)) leads).

Ltac q_absurd :=
  match goal with
  | H1 : (?x < ?y)%Q, H2 : (?y <= ?x)%Q |- _ =>
      exfalso; exact (Qlt_not_le _ _ H1 H2)
  end.

(** The running total agrees with the awards recorded so far. *)
Definition consistent (l : locals) : Prop :=
  score l = total_points (reasons l).

(** The locals of [score_lead] after the contact, duplicate and name
    checks, given what the tracker answered. *)
Definition pipeline (lead : gmap string string) (rp re dup : bool) : locals :=
  name_step (get lead "name")
    (cap_locals Duplicate 25
       (duplicate_step dup
          (cap_locals Contact 40
             (repeated_step rp re
                (email_step (get lead "email")
                   (phone_step (get lead "phone") locals0)))))).

Definition finish (lead : gmap string string) (l : locals) : ScoreResult :=
  classify
    (cap_locals Quality 10
       (missing_fields_step (get lead "name") (get lead "email")
          (get lead "phone") l)).

Section Flags.

Variable md5_hexdigest : string -> string.

(** What the tracker answers for [lead] inside [score_lead]. *)
Definition repeat_flags (self : tracker) (lead : gmap string string)
  : bool * bool :=
  (check_repeated_contact self lead).1.

Definition duplicate_flag (self : tracker) (lead : gmap string string)
  : bool :=
  (find_exact_duplicate md5_hexdigest (check_repeated_contact self lead).2
     lead).1.

End Flags.

(** The hash of the fingerprint of a lead. *)
Definition lead_hash (md5_hexdigest : string -> string)
  (lead : gmap string string) : string :=
  md5_hexdigest (fingerprint lead).

(** Sample batches. *)
Definition john : gmap string string :=
  lead_of "John Smith" "john@example.com" "555-123-4567".

Definition mary : gmap string string :=
  lead_of "Mary Jones" "mary@example.org" "(555) 987-6543".

Definition batch10 : list (gmap string string) :=
  [ john; mary; ∅; ∅; ∅; ∅;
    lead_of "Ann Lee" "ann@example.com" "5551112222";
    lead_of "Bob Ray" "bob@example.com" "5551113333";
    lead_of "Cy Young" "cy@example.com" "5551114444";
    lead_of "Di Park" "di@example.com" "5551115555" ].

Definition breakdown_sum (r : ScoreResult) : Z :=
  contact (result_breakdown r) + duplicate (result_breakdown r)
  + quality (result_breakdown r).

(** ** Words of a regular expression *)

(** [matches r s]: the string [s] is a word of [r]. *)
Inductive matches : Re.regex -> string -> Prop :=
| matches_eps : matches Re.Eps ""
| matches_class p c : p c = true -> matches (Re.Class p) (String c "")
| matches_cat a b s t :
    matches a s -> matches b t -> matches (Re.Cat a b) (s ++ t)
| matches_alt_l a b s : matches a s -> matches (Re.Alt a b) s
| matches_alt_r a b s : matches b s -> matches (Re.Alt a b) s
| matches_star_nil a : matches (Re.Star a) ""
| matches_star_app a s t :
    matches a s -> matches (Re.Star a) t -> matches (Re.Star a) (s ++ t).

(** [all(p(ch) for ch in s)] *)
Fixpoint all (p : ascii -> bool) (s : string) : bool :=
  match s with
  | EmptyString => true
  | String c r => p c && all p r
  end.

(** The shape [local@domain.tld] of the addresses that
    [validate_email_format] is written for. *)
Definition email_shape (s : string) : Prop :=
  exists local domain tld,
    s = local ++ "@" ++ domain ++ "." ++ tld
    /\ local <> "" /\ all local_part_char local = true
    /\ domain <> "" /\ all domain_char domain = true
    /\ (2 <= String.length tld)%nat /\ all re_alpha tld = true.

Definition newline : string := String "010" "".


(** ** The tests made by [score_lead] *)

(** The answers to the ten tests [score_lead] makes on a lead. *)
Record signals : Type := Signals {
  phone_present : bool;
  phone_valid : bool;
  email_present : bool;
  email_valid : bool;
  email_disposable : bool;
  name_present : bool;
  name_gibberish : bool;
  phone_repeated : bool;
  email_repeated : bool;
  exact_duplicate : bool
}.

Definition signals_of (md5_hexdigest : string -> string) (self : tracker)
  (lead : gmap string string) : signals :=
  {| phone_present := truthy (get lead "phone");
     phone_valid := validate_phone_format (get lead "phone");
     email_present := truthy (get lead "email");
     email_valid := validate_email_format (get lead "email");
     email_disposable := is_disposable_email (get lead "email");
     name_present := truthy (get lead "name");
     name_gibberish := is_gibberish_name (get lead "name");
     phone_repeated := (repeat_flags self lead).1;
     email_repeated := (repeat_flags self lead).2;
     exact_duplicate := duplicate_flag md5_hexdigest self lead |}.

(** The body of [score_lead] with the answers to its tests given. *)
Definition outcome (s : signals) : ScoreResult :=
  let l := locals0 in
  let l :=
    if negb (phone_present s) then award Contact 10 "Missing phone number" l
    else if negb (phone_valid s)
         then award Contact 10 "Invalid phone format" l
    else l in
  let l :=
    if negb (email_present s) then award Contact 10 "Missing email address" l
    else if negb (email_valid s)
         then award Contact 10 "Invalid email format" l
    else if email_disposable s
         then award Contact 10 "Disposable email domain" l
    else l in
  let l := repeated_step (phone_repeated s) (email_repeated s) l in
  let l := cap_locals Contact 40 l in
  let l := duplicate_step (exact_duplicate s) l in
  let l := cap_locals Duplicate 25 l in
  let l :=
    if negb (name_present s) || name_gibberish s
    then award Quality 10 "Invalid or gibberish name" l
    else l in
  let l :=
    if negb (name_present s) || negb (email_present s)
       || negb (phone_present s)
    then
      if negb (contains "Missing" (join " " (reasons l)))
      then award Quality 10 "Missing critical fields" l
      else l
    else l in
  let l := cap_locals Quality 10 l in
  classify l.

Definition both (f : bool -> bool) : bool := f true && f false.

(** [check] holds for all 1024 combinations of answers. *)
Definition for_all_signals (check : signals -> bool) : bool :=
  both (fun a => both (fun b => both (fun c => both (fun d => both (fun e =>
  both (fun f => both (fun g => both (fun h => both (fun i => both (fun j =>
    check (Signals a b c d e f g h i j))))))))))).

(** [reason in reasons] *)
Definition has_reason (reason : string) (r : ScoreResult) : bool :=
  existsb (String.eqb reason) (result_reasons r).

(** The number of [True] in a list of flags. *)
Definition count_true (flags : list bool) : nat :=
  length (List.filter (fun b => b) flags).

(** The answers for lead [k] of a batch scored in order by a fresh
    scorer, read off the batch. *)
Definition batch_signals (md5_hexdigest : string -> string)
  (leads : list (gmap string string)) (k : nat) (lead : gmap string string)
  : signals :=
  {| phone_present := truthy (get lead "phone");
     phone_valid := validate_phone_format (get lead "phone");
     email_present := truthy (get lead "email");
     email_valid := validate_email_format (get lead "email");
     email_disposable := is_disposable_email (get lead "email");
     name_present := truthy (get lead "name");
     name_gibberish := is_gibberish_name (get lead "name");
     phone_repeated := (3 <=? occurrences "phone" lead (take (S k) leads))%nat;
     email_repeated := (3 <=? occurrences "email" lead (take (S k) leads))%nat;
     exact_duplicate :=
       bool_decide
         (lead_hash md5_hexdigest lead
          ∈ (list_to_set (lead_hash md5_hexdigest <$> take k leads)
             : gset string)) |}.

(** A lead with no name, a malformed email and a malformed phone. *)
Definition worst_lead : gmap string string := lead_of "" "bad" "123".

(** The exit status with which [main] ends after a completed analysis. *)
Definition exit_status (refund_info : RefundInfo) : Z :=
  if Qle_bool 25 (fraud_percentage refund_info) then 2
  else if Qle_bool 15 (fraud_percentage refund_info) then 1
  else 0.

(** ** The reasons column and the indicator tables *)

(** [s.split(sep)] for a separator of any positive length: the pieces
    between the occurrences of [sep], found from left to right; [skip]
    counts the characters of an occurrence still to be passed over. *)
Fixpoint split_from (sep s : string) (skip : nat) : list string :=
  match s with
  | EmptyString => [EmptyString]
  | String c r =>
      match skip with
      | S k => split_from sep r k
      | O =>
          if startswith sep s
          then EmptyString :: split_from sep r (String.length sep - 1)
          else match split_from sep r 0 with
               | h :: t => String c h :: t
               | [] => [String c EmptyString]
               end
      end
  end.

Definition split_str (sep s : string) : list string := split_from sep s 0.

(** The entry of the [fraud_reasons] column that [main] and
    [process_batch] write for one result:
    [', '.join(r['reasons']) if r['reasons'] else '']. *)
Definition fraud_reasons_entry (r : ScoreResult) : string :=
  match result_reasons r with
  | [] => EmptyString
  | _ :: _ => join ", " (result_reasons r)
  end.

(** The loop that collects [all_reasons] from the column, in
    [generate_summary_report] and [_generate_fraud_indicators]. *)
Fixpoint collect_reasons (column : list string) : list string :=
  match column with
  | [] => []
  | reasons_str :: rest =>
      if truthy reasons_str
      then (split_str ", " reasons_str ++ collect_reasons rest)%list
      else collect_reasons rest
  end.

(** The two tables of [_generate_fraud_indicators]. *)
Definition category_map : gmap string string :=
  {[ "Invalid phone format" := "contact";
     "Missing phone number" := "contact";
     "Invalid email format" := "contact";
     "Missing email address" := "contact";
     "Disposable email domain" := "contact";
     "Phone number repeated 3+ times" := "contact";
     "Email repeated 3+ times" := "contact";
     "Exact duplicate detected" := "duplicate";
     "Invalid or gibberish name" := "quality";
     "Missing critical fields" := "quality" ]}.

Definition points_map : gmap string Z :=
  {[ "Invalid phone format" := 10%Z;
     "Missing phone number" := 10%Z;
     "Invalid email format" := 10%Z;
     "Missing email address" := 10%Z;
     "Disposable email domain" := 10%Z;
     "Phone number repeated 3+ times" := 10%Z;
     "Email repeated 3+ times" := 10%Z;
     "Exact duplicate detected" := 15%Z;
     "Invalid or gibberish name" := 10%Z;
     "Missing critical fields" := 10%Z ]}.

(** [category_map.get(reason, 'quality')] and
    [points_map.get(reason, 10)] *)
Definition indicator_category (reason : string) : string :=
  default "quality" (category_map !! reason).

Definition points_per_lead (reason : string) : Z :=
  default 10%Z (points_map !! reason).

(** The points the tables attribute to the reasons of one category. *)
Fixpoint category_points (cat : string) (rs : list string) : Z :=
  match rs with
  | [] => 0
  | reason :: rest =>
      ((if String.eqb (indicator_category reason) cat
        then points_per_lead reason else 0)
       + category_points cat rest)%Z
  end.

Definition in_table {V : Type} (table : gmap string V) (reason : string)
  : bool :=
  match table !! reason with Some _ => true | None => false end.

(** A reason that survives the column: not empty and without a comma. *)
Definition plain_reason (reason : string) : bool :=
  truthy reason && negb (any (Ascii.eqb ",") reason).

(** ** Money *)

(** [len(leads_df) * cost_per_lead if cost_per_lead else None]; a cost
    that is absent or zero is falsy. *)
Definition batch_cost_of (rows : Z) (cost_per_lead : option Q) : option Q :=
  match cost_per_lead with
  | Some c => if Qeq_bool c 0 then None else Some (inject_Z rows * c)%Q
  | None => None
  end.

(** [batch_cost * (refund_info['refund_percentage'] / 100) if batch_cost
    else 0], the refund amount of [process_batch]. *)
Definition refund_amount_of (batch_cost : option Q) (refund_info : RefundInfo)
  : Q :=
  match batch_cost with
  | Some cost =>
      if Qeq_bool cost 0 then 0
      else (cost * (refund_percentage refund_info / 100))%Q
  | None => 0
  end.

(** ** The refund summary of the database client *)

(** A row of the [batches] table as [get_refund_summary] reads it: the
    columns [refund_status] and [refund_amount], each possibly null. *)
Record batch_row : Type := BatchRow {
  row_refund_status : option string;
  row_refund_amount : option Q
}.

Record RefundSummary : Type := Summary {
  total_batches : Z;
  full_refunds : Z;
  partial_refunds : Z;
  no_refunds : Z;
  total_refund_amount : Q
}.

(** One round of the loop of [get_refund_summary]. *)
Definition summary_step (summary : RefundSummary) (batch : batch_row)
  : RefundSummary :=
  let status := row_refund_status batch in
  let amount :=
    match row_refund_amount batch with
    | Some a => if Qeq_bool a 0 then 0%Q else a
    | None => 0%Q
    end in
  let summary :=
    match status with
    | Some "FULL REFUND" =>
        {| total_batches := total_batches summary;
           full_refunds := full_refunds summary + 1;
           partial_refunds := partial_refunds summary;
           no_refunds := no_refunds summary;
           total_refund_amount := total_refund_amount summary |}
    | Some "PARTIAL REFUND" =>
        {| total_batches := total_batches summary;
           full_refunds := full_refunds summary;
           partial_refunds := partial_refunds summary + 1;
           no_refunds := no_refunds summary;
           total_refund_amount := total_refund_amount summary |}
    | Some "NO REFUND" =>
        {| total_batches := total_batches summary;
           full_refunds := full_refunds summary;
           partial_refunds := partial_refunds summary;
           no_refunds := no_refunds summary + 1;
           total_refund_amount := total_refund_amount summary |}
    | _ => summary
    end in
  {| total_batches := total_batches summary;
     full_refunds := full_refunds summary;
     partial_refunds := partial_refunds summary;
     no_refunds := no_refunds summary;
     total_refund_amount := (total_refund_amount summary + amount)%Q |}.

(** [get_refund_summary] on the rows the query returned. *)
Definition get_refund_summary (data : list batch_row) : RefundSummary :=
  fold_left summary_step data
    {| total_batches := Z.of_nat (length data);
       full_refunds := 0; partial_refunds := 0; no_refunds := 0;
       total_refund_amount := 0 |}.

(** The status is one of the three that [calculate_batch_refund] writes. *)
Definition known_status (batch : batch_row) : bool :=
  match row_refund_status batch with
  | Some status =>
      String.eqb status "FULL REFUND" || String.eqb status "PARTIAL REFUND"
      || String.eqb status "NO REFUND"
  | None => false
  end.

(** The row [process_batch] hands to the database for a batch. *)
Definition batch_row_of (batch_cost : option Q) (refund_info : RefundInfo)
  : batch_row :=
  {| row_refund_status := Some (refund_type refund_info);
     row_refund_amount := Some (refund_amount_of batch_cost refund_info) |}.

(** The batches that [get_refund_summary] has put into one of its three
    counters. *)
Definition counted (summary : RefundSummary) : Z :=
  full_refunds summary + partial_refunds summary + no_refunds summary.

(** Case analysis over the 256 characters. *)
Ltac each_char c :=
  destruct c as [[] [] [] [] [] [] [] []].


(** * Properties *)

(** ** Rule predicates on empty input *)

(** C10: on the empty string (what [lead.get(k, '')] yields for an absent
    or empty field) the four rule predicates return a value:
    [validate_phone_format], [validate_email_format] and
    [is_disposable_email] return false, [is_gibberish_name] returns true. *)
Theorem predicates_on_empty_input :
  validate_phone_format (get ∅ "phone") = false
  /\ validate_phone_format "" = false
  /\ validate_email_format "" = false
  /\ is_disposable_email "" = false
  /\ is_gibberish_name "" = true.
Proof. repeat split; reflexivity. Qed.

(** ** The batch refund *)

Lemma filter_length_count_occ (leads_df : list ScoreResult) :
  length (List.filter is_fraudulent leads_df)
  = count_occ bool_dec (map is_fraudulent leads_df) true.
Proof.
  induction leads_df as [|r rest IH]; simpl; [reflexivity|].
  destruct (is_fraudulent r); simpl; rewrite IH; reflexivity.
Qed.

Lemma truediv_nonzero (a b : Z) :
  b <> 0%Z -> truediv a b = inr (inject_Z a / inject_Z b)%Q.
Proof.
  intros Hb. unfold truediv.
  destruct (Z.eqb_spec b 0); [contradiction | reflexivity].
Qed.

Lemma Qle_bool_false (x y : Q) : Qle_bool x y = false -> (y < x)%Q.
Proof.
  intros H. apply Qnot_le_lt. intros Hle.
  apply Qle_bool_iff in Hle. congruence.
Qed.

(** C2: on a non-empty batch [calculate_batch_refund] returns a record
    whose fraud percentage is 100 * (number of fraudulent rows) / (number
    of rows); at 25 or more the refund is full at 100, from 15 up to 25 it
    is partial at the fraud percentage itself, below 15 there is none at
    0. *)
Theorem calculate_batch_refund_tiers (leads_df : list ScoreResult) :
  leads_df <> [] ->
  exists info,
    calculate_batch_refund leads_df = inr info
    /\ (fraud_percentage info
        == 100 * (inject_Z (fraud_count leads_df)
                  / inject_Z (Z.of_nat (length leads_df))))%Q
    /\ ((25 <= fraud_percentage info)%Q ->
        refund_type info = "FULL REFUND"
        /\ (refund_percentage info == 100)%Q)
    /\ ((15 <= fraud_percentage info)%Q /\ (fraud_percentage info < 25)%Q ->
        refund_type info = "PARTIAL REFUND"
        /\ refund_percentage info = fraud_percentage info)
    /\ ((fraud_percentage info < 15)%Q ->
        refund_type info = "NO REFUND"
        /\ (refund_percentage info == 0)%Q).
Proof.
  intros Hne.
  assert (Hlen : Z.of_nat (length leads_df) <> 0%Z).
  { destruct leads_df; [contradiction | simpl; lia]. }
  unfold calculate_batch_refund.
  rewrite (truediv_nonzero _ _ Hlen).
  set (fp := (inject_Z _ / inject_Z _ * 100)%Q).
  destruct (Qle_bool 25 fp) eqn:H25; [|destruct (Qle_bool 15 fp) eqn:H15];
    eexists; (split; [reflexivity|]); simpl; fold fp.
  all: split;
    [ unfold fp, fraud_count; rewrite filter_length_count_occ; ring | ].
  - apply Qle_bool_iff in H25.
    split; [intros _; split; reflexivity|].
    split; [intros [_ Hlt] | intros Hlt]; [q_absurd|].
    assert (H15 : (15 <= fp)%Q)
      by (eapply Qle_trans; [|exact H25]; discriminate).
    q_absurd.
  - apply Qle_bool_false in H25. apply Qle_bool_iff in H15.
    split; [intros Hle; q_absurd|].
    split; [intros _; split; reflexivity|].
    intros Hlt. q_absurd.
  - apply Qle_bool_false in H25. apply Qle_bool_false in H15.
    split; [intros Hle; q_absurd|].
    split; [intros [Hle _]; q_absurd|].
    intros _. split; reflexivity.
Qed.

(** ** Scoring one lead *)

Lemma total_points_app (a b : list string) :
  total_points (a ++ b) = (total_points a + total_points b)%Z.
Proof. induction a as [|r a IH]; simpl; [reflexivity | rewrite IH; lia]. Qed.

Lemma award_consistent cat pts reason l :
  award_points reason = pts -> consistent l ->
  consistent (award cat pts reason l).
Proof.
  unfold consistent. intros Hp Hl. simpl.
  rewrite total_points_app, Hl. simpl. lia.
Qed.

Lemma cap_locals_consistent cat limit l :
  consistent l -> consistent (cap_locals cat limit l).
Proof. exact (fun H => H). Qed.

Create HintDb scoring.
#[local] Hint Resolve award_consistent cap_locals_consistent : scoring.

Lemma phone_step_consistent phone l :
  consistent l -> consistent (phone_step phone l).
Proof. intros H. unfold phone_step. repeat case_match; auto with scoring. Qed.

Lemma email_step_consistent email l :
  consistent l -> consistent (email_step email l).
Proof. intros H. unfold email_step. repeat case_match; auto with scoring. Qed.

Lemma repeated_step_consistent rp re l :
  consistent l -> consistent (repeated_step rp re l).
Proof. intros H. unfold repeated_step. destruct rp, re; auto with scoring. Qed.

Lemma duplicate_step_consistent dup l :
  consistent l -> consistent (duplicate_step dup l).
Proof. intros H. unfold duplicate_step. destruct dup; auto with scoring. Qed.

Lemma name_step_consistent name l :
  consistent l -> consistent (name_step name l).
Proof. intros H. unfold name_step. case_match; auto with scoring. Qed.

Lemma missing_fields_step_consistent name email phone l :
  consistent l -> consistent (missing_fields_step name email phone l).
Proof.
  intros H. unfold missing_fields_step. repeat case_match; auto with scoring.
Qed.

#[local] Hint Resolve phone_step_consistent email_step_consistent
  repeated_step_consistent duplicate_step_consistent name_step_consistent
  missing_fields_step_consistent : scoring.

Section ScoreLead.

Variable md5_hexdigest : string -> string.

Lemma score_lead_upto_name_pipeline self lead :
  (score_lead_upto_name md5_hexdigest self lead).1
  = pipeline lead (repeat_flags self lead).1 (repeat_flags self lead).2
      (duplicate_flag md5_hexdigest self lead).
Proof.
  unfold score_lead_upto_name, pipeline, repeat_flags, duplicate_flag.
  destruct (check_repeated_contact self lead) as [[rp re] self1].
  cbn [fst snd].
  destruct (find_exact_duplicate md5_hexdigest self1 lead) as [dup self2].
  reflexivity.
Qed.

Lemma score_lead_finish self lead :
  (score_lead md5_hexdigest self lead).1
  = finish lead (score_lead_upto_name md5_hexdigest self lead).1.
Proof.
  unfold score_lead, finish.
  destruct (score_lead_upto_name md5_hexdigest self lead) as [l self'].
  reflexivity.
Qed.

End ScoreLead.

Lemma pipeline_consistent lead rp re dup : consistent (pipeline lead rp re dup).
Proof.
  unfold pipeline.
  assert (H0 : consistent locals0) by reflexivity.
  auto 10 with scoring.
Qed.

Lemma classify_fields l :
  fraud_score (classify l) = score l
  /\ result_reasons (classify l) = reasons l
  /\ result_breakdown (classify l) = bd l.
Proof. unfold classify. repeat case_match; auto. Qed.

Lemma classify_thresholds l :
  ((50 <= score l)%Z ->
     classification (classify l) = "FRAUDULENT"
     /\ is_fraudulent (classify l) = true)
  /\ ((25 <= score l < 50)%Z ->
     classification (classify l) = "SUSPICIOUS"
     /\ is_fraudulent (classify l) = false)
  /\ ((score l < 25)%Z ->
     classification (classify l) = "VALID"
     /\ is_fraudulent (classify l) = false).
Proof.
  unfold classify.
  destruct (Z.leb_spec 50 (score l)); [|destruct (Z.leb_spec 25 (score l))];
    simpl; repeat split; intros; try reflexivity; lia.
Qed.

Lemma finish_total lead l :
  consistent l ->
  fraud_score (finish lead l) = total_points (result_reasons (finish lead l)).
Proof.
  intros H. unfold finish.
  destruct (classify_fields
              (cap_locals Quality 10
                 (missing_fields_step (get lead "name") (get lead "email")
                    (get lead "phone") l))) as (-> & -> & _).
  apply cap_locals_consistent, missing_fields_step_consistent, H.
Qed.

(** C1: the classification of [score_lead] is decided by [fraud_score],
    which is the sum of the points of all awards made (one per reason):
    50 or more is FRAUDULENT and fraudulent, 25 up to 50 is SUSPICIOUS and
    not fraudulent, below 25 is VALID and not fraudulent; the capped
    breakdown is not consulted: some lead is SUSPICIOUS although its
    breakdown values add up to less than 25. *)
Theorem score_lead_classification (md5_hexdigest : string -> string) :
  (forall self lead,
     let r := (score_lead md5_hexdigest self lead).1 in
     fraud_score r = total_points (result_reasons r)
     /\ ((50 <= fraud_score r)%Z ->
         classification r = "FRAUDULENT" /\ is_fraudulent r = true)
     /\ ((25 <= fraud_score r < 50)%Z ->
         classification r = "SUSPICIOUS" /\ is_fraudulent r = false)
     /\ ((fraud_score r < 25)%Z ->
         classification r = "VALID" /\ is_fraudulent r = false))
  /\ (exists self lead,
        let r := (score_lead md5_hexdigest self lead).1 in
        classification r = "SUSPICIOUS" /\ (breakdown_sum r < 25)%Z).
Proof.
  split.
  - intros self lead r. subst r.
    rewrite score_lead_finish, score_lead_upto_name_pipeline.
    split; [apply finish_total, pipeline_consistent|].
    unfold finish.
    match goal with |- context [classify ?l] =>
      destruct (classify_fields l) as (-> & _ & _); apply classify_thresholds
    end.
  - exists new_tracker, (lead_of "" "john@example.com" "123").
    split; vm_compute; reflexivity.
Qed.

(** *** The breakdown caps *)

Lemma later_steps_keep_contact lead dup l :
  contact (bd (cap_locals Quality 10
                 (missing_fields_step (get lead "name") (get lead "email")
                    (get lead "phone")
                    (name_step (get lead "name")
                       (cap_locals Duplicate 25 (duplicate_step dup l))))))
  = contact (bd l).
Proof.
  unfold missing_fields_step, name_step, duplicate_step.
  repeat case_match; reflexivity.
Qed.

Lemma quality_steps_keep_duplicate lead l :
  duplicate (bd (cap_locals Quality 10
                   (missing_fields_step (get lead "name") (get lead "email")
                      (get lead "phone") (name_step (get lead "name") l))))
  = duplicate (bd l).
Proof.
  unfold missing_fields_step, name_step.
  repeat case_match; reflexivity.
Qed.

Lemma finish_pipeline_caps lead rp re dup :
  let b := result_breakdown (finish lead (pipeline lead rp re dup)) in
  (contact b <= 40 /\ duplicate b <= 25 /\ quality b <= 10)%Z.
Proof.
  unfold finish.
  match goal with |- context [classify ?l] =>
    destruct (classify_fields l) as (_ & _ & ->)
  end.
  unfold pipeline. cbv zeta. split; [|split].
  - rewrite later_steps_keep_contact. simpl. apply Z.le_min_r.
  - rewrite quality_steps_keep_duplicate. simpl. apply Z.le_min_r.
  - simpl. apply Z.le_min_r.
Qed.

(** C6: in every result of [score_lead] the breakdown satisfies
    contact <= 40, duplicate <= 25 and quality <= 10, and [fraud_score]
    is the sum of the points of all awards made, without clipping; for
    some lead [fraud_score] is strictly larger than the sum of the three
    breakdown values. *)
Theorem score_lead_breakdown_caps (md5_hexdigest : string -> string) :
  (forall self lead,
     let r := (score_lead md5_hexdigest self lead).1 in
     (contact (result_breakdown r) <= 40)%Z
     /\ (duplicate (result_breakdown r) <= 25)%Z
     /\ (quality (result_breakdown r) <= 10)%Z
     /\ fraud_score r = total_points (result_reasons r))
  /\ (exists self lead,
        let r := (score_lead md5_hexdigest self lead).1 in
        (breakdown_sum r < fraud_score r)%Z).
Proof.
  split.
  - intros self lead r. subst r.
    rewrite score_lead_finish, score_lead_upto_name_pipeline.
    pose proof (finish_pipeline_caps lead
                  (repeat_flags self lead).1 (repeat_flags self lead).2
                  (duplicate_flag md5_hexdigest self lead)) as (Hc & Hd & Hq).
    repeat split; try assumption.
    apply finish_total, pipeline_consistent.
  - exists new_tracker, (lead_of "" "john@example.com" "555-123-4567").
    vm_compute. reflexivity.
Qed.

(** *** The missing-fields check *)

Lemma truthy_false (s : string) : truthy s = false <-> s = "".
Proof. destruct s; simpl; split; congruence. Qed.

Lemma append_empty (s : string) : "" ++ s = s.
Proof. reflexivity. Qed.

Lemma append_String c (s t : string) : String c s ++ t = String c (s ++ t).
Proof. reflexivity. Qed.

Lemma startswith_before_space sub x rest :
  any (Ascii.eqb " ") sub = false ->
  startswith sub (x ++ String " " rest) = startswith sub x.
Proof.
  revert x. induction sub as [|c sub IH]; intros x Hs; [reflexivity|].
  cbn [any] in Hs. apply orb_false_elim in Hs as [Hc Hs].
  destruct x as [|d x].
  - rewrite append_empty. cbn [startswith].
    rewrite Ascii.eqb_sym, Hc. reflexivity.
  - rewrite append_String. cbn [startswith].
    rewrite IH by assumption. reflexivity.
Qed.

Lemma contains_across_space sub x rest :
  sub <> "" -> any (Ascii.eqb " ") sub = false ->
  contains sub (x ++ String " " rest) = contains sub x || contains sub rest.
Proof.
  intros Hne Hs. induction x as [|d x IH].
  - destruct sub as [|c sub]; [contradiction|].
    cbn [any] in Hs. apply orb_false_elim in Hs as [Hc _].
    rewrite append_empty. cbn [contains startswith].
    rewrite Ascii.eqb_sym, Hc. reflexivity.
  - change (contains sub (String d x ++ String " " rest))
      with (startswith sub (String d x ++ String " " rest)
            || contains sub (x ++ String " " rest)).
    rewrite startswith_before_space, IH by assumption.
    change (contains sub (String d x))
      with (startswith sub (String d x) || contains sub x).
    rewrite orb_assoc. reflexivity.
Qed.

(** A word without a space occurs in the joined reasons exactly when it
    occurs in one of them. *)
Lemma contains_join sub (rs : list string) :
  sub <> "" -> any (Ascii.eqb " ") sub = false ->
  contains sub (join " " rs) = existsb (contains sub) rs.
Proof.
  intros Hne Hs. induction rs as [|r rs IH].
  - destruct sub; [contradiction | reflexivity].
  - destruct rs as [|r' rs].
    + simpl. rewrite orb_false_r. reflexivity.
    + change (join " " (r :: r' :: rs))
        with (r ++ String " " (join " " (r' :: rs))).
      rewrite contains_across_space, IH by assumption. reflexivity.
Qed.

Lemma missing_fields_step_spec name email phone l :
  let missing := name = "" \/ email = "" \/ phone = "" in
  let unseen :=
    forall reason, In reason (reasons l) -> contains "Missing" reason = false in
  (missing /\ unseen ->
     missing_fields_step name email phone l
     = award Quality 10 "Missing critical fields" l)
  /\ (~ (missing /\ unseen) -> missing_fields_step name email phone l = l).
Proof.
  intros missing unseen. unfold missing_fields_step.
  rewrite contains_join by (discriminate || reflexivity).
  assert (Hm : negb (truthy name) || negb (truthy email)
               || negb (truthy phone) = true <-> missing).
  { unfold missing. rewrite !orb_true_iff, !negb_true_iff, !truthy_false.
    tauto. }
  assert (Hu : negb (existsb (contains "Missing") (reasons l)) = true
               <-> unseen).
  { unfold unseen. rewrite negb_true_iff. split.
    - intros Hex reason Hin.
      destruct (contains "Missing" reason) eqn:Hc; [|reflexivity].
      assert (existsb (contains "Missing") (reasons l) = true)
        by (apply existsb_exists; eauto).
      congruence.
    - intros Hall.
      destruct (existsb (contains "Missing") (reasons l)) eqn:Hex;
        [|reflexivity].
      apply existsb_exists in Hex as (reason & Hin & Hc).
      rewrite (Hall reason Hin) in Hc. discriminate. }
  destruct (negb (truthy name) || negb (truthy email) || negb (truthy phone));
    destruct (negb (existsb (contains "Missing") (reasons l)));
    split; intros H; try reflexivity.
  - exfalso. apply H. split; [apply Hm | apply Hu]; reflexivity.
  - destruct H as [_ H]. apply Hu in H. discriminate.
  - destruct H as [H _]. apply Hm in H. discriminate.
  - destruct H as [H _]. apply Hm in H. discriminate.
Qed.

(** C7: in [score_lead] the award of 10 points with reason
    "Missing critical fields" is made exactly when one of name, email,
    phone is missing and none of the reasons collected before in the same
    call contains "Missing"; only those reasons are inspected. *)
Theorem missing_critical_fields_award (md5_hexdigest : string -> string)
  (self : tracker) (lead : gmap string string) :
  let l := (score_lead_upto_name md5_hexdigest self lead).1 in
  let r := (score_lead md5_hexdigest self lead).1 in
  let missing :=
    get lead "name" = "" \/ get lead "email" = "" \/ get lead "phone" = "" in
  let unseen :=
    forall reason, In reason (reasons l) -> contains "Missing" reason = false in
  (missing /\ unseen ->
     result_reasons r = (reasons l ++ ["Missing critical fields"])%list
     /\ fraud_score r = (score l + 10)%Z)
  /\ (~ (missing /\ unseen) ->
     result_reasons r = reasons l /\ fraud_score r = score l).
Proof.
  intros l r missing unseen. subst r.
  rewrite score_lead_finish. fold l. unfold finish.
  match goal with |- context [classify ?x] =>
    destruct (classify_fields x) as (-> & -> & _)
  end.
  destruct (missing_fields_step_spec (get lead "name") (get lead "email")
              (get lead "phone") l) as [Hyes Hno].
  split; intros H.
  - rewrite (Hyes H). split; reflexivity.
  - rewrite (Hno H). split; reflexivity.
Qed.

(** *** Clean leads *)

(** C3: a lead whose phone is present and well formed, whose email is
    present, well formed and not disposable, whose name is present and
    not gibberish, and for which the tracker raises neither repeat flag
    nor the duplicate flag, gets [fraud_score] 0 and is VALID. *)
Theorem clean_lead_scores_zero (md5_hexdigest : string -> string)
  (self : tracker) (lead : gmap string string) :
  truthy (get lead "phone") = true ->
  validate_phone_format (get lead "phone") = true ->
  truthy (get lead "email") = true ->
  validate_email_format (get lead "email") = true ->
  is_disposable_email (get lead "email") = false ->
  truthy (get lead "name") = true ->
  is_gibberish_name (get lead "name") = false ->
  (check_repeated_contact self lead).1 = (false, false) ->
  (find_exact_duplicate md5_hexdigest (check_repeated_contact self lead).2
     lead).1 = false ->
  let r := (score_lead md5_hexdigest self lead).1 in
  fraud_score r = 0%Z /\ classification r = "VALID".
Proof.
  intros Hp Hpv He Hev Hed Hn Hng Hrep Hdup r. subst r.
  rewrite score_lead_finish, score_lead_upto_name_pipeline.
  unfold repeat_flags, duplicate_flag. rewrite Hrep, Hdup.
  unfold finish, pipeline, missing_fields_step, name_step, duplicate_step,
    repeated_step, email_step, phone_step.
  cbn [fst snd].
  rewrite Hp, Hpv, He, Hev, Hed, Hn, Hng.
  split; reflexivity.
Qed.

Lemma clean_lead_scores_zero_witness :
  let r := (score_lead plain_digest new_tracker john).1 in
  fraud_score r = 0%Z /\ classification r = "VALID".
Proof.
  apply (clean_lead_scores_zero plain_digest new_tracker john);
    vm_compute; reflexivity.
Defined.

(** *** Leads with every critical field missing *)

Lemma fresh_tracker_no_flags (md5_hexdigest : string -> string)
  (lead : gmap string string) :
  (check_repeated_contact new_tracker lead).1 = (false, false)
  /\ (find_exact_duplicate md5_hexdigest
        (check_repeated_contact new_tracker lead).2 lead).1 = false.
Proof.
  unfold check_repeated_contact, find_exact_duplicate, incr, count_of.
  cbn [fst snd new_tracker seen_phones seen_emails seen_hashes].
  rewrite !lookup_insert_eq. split; [reflexivity|].
  rewrite bool_decide_eq_false_2 by set_solver. reflexivity.
Qed.

(** C8, as the code has it: a lead whose phone, email and name are all
    missing, scored by a fresh scorer, gets exactly 30 points (missing
    phone, missing email, invalid name); the fourth award is withheld
    because "Missing phone number" is already among the reasons; the lead
    is SUSPICIOUS. *)
Theorem all_missing_scores_30 (md5_hexdigest : string -> string)
  (lead : gmap string string) :
  get lead "phone" = "" -> get lead "email" = "" -> get lead "name" = "" ->
  let r := (score_lead md5_hexdigest new_tracker lead).1 in
  fraud_score r = 30%Z
  /\ classification r = "SUSPICIOUS"
  /\ is_fraudulent r = false
  /\ result_reasons r
     = ["Missing phone number"; "Missing email address";
        "Invalid or gibberish name"].
Proof.
  intros Hp He Hn r. subst r.
  rewrite score_lead_finish, score_lead_upto_name_pipeline.
  destruct (fresh_tracker_no_flags md5_hexdigest lead) as [Hrep Hdup].
  unfold repeat_flags, duplicate_flag. rewrite Hrep, Hdup.
  unfold finish, pipeline. rewrite Hp, He, Hn.
  repeat split; reflexivity.
Qed.

Lemma all_missing_scores_30_witness :
  let r := (score_lead plain_digest new_tracker ∅).1 in
  fraud_score r = 30%Z
  /\ classification r = "SUSPICIOUS"
  /\ is_fraudulent r = false
  /\ result_reasons r
     = ["Missing phone number"; "Missing email address";
        "Invalid or gibberish name"].
Proof.
  apply (all_missing_scores_30 plain_digest ∅); reflexivity.
Defined.

(** The lead with no field at all, scored by a fresh scorer, stays below
    40 points. *)
Lemma all_missing_below_40 :
  let lead : gmap string string := ∅ in
  get lead "phone" = "" /\ get lead "email" = "" /\ get lead "name" = ""
  /\ ~ (40 <= fraud_score (score_lead plain_digest new_tracker lead).1)%Z.
Proof.
  cbv zeta. repeat split. vm_compute. intros H. apply H. reflexivity.
Qed.

(** ** The empty batch *)

(** C9, as the code has it: [calculate_batch_refund] has no guard; it
    fails exactly on the empty batch, and the failure is the
    [ZeroDivisionError] of the division by the number of rows. *)
Theorem calculate_batch_refund_empty (leads_df : list ScoreResult) :
  calculate_batch_refund leads_df = inl ZeroDivisionError <-> leads_df = [].
Proof.
  split.
  - intros H. destruct leads_df as [|r rest]; [reflexivity|].
    unfold calculate_batch_refund in H.
    rewrite truediv_nonzero in H by (simpl; lia).
    repeat case_match; discriminate.
  - intros ->. reflexivity.
Qed.

(** On the empty batch the division is carried out and its exception is
    the outcome; no error of a guard is produced. *)
Lemma empty_batch_divides_by_zero :
  truediv 0 0 = inl ZeroDivisionError
  /\ calculate_batch_refund [] = inl ZeroDivisionError
  /\ ~ (exists message, calculate_batch_refund [] = inl (ValueError message)).
Proof.
  repeat split. intros [message H]. discriminate.
Qed.

(** A batch of ten leads of which two are fraudulent: 20 percent, partial
    refund of 20 percent. *)
Lemma calculate_batch_refund_tiers_witness :
  let leads_df := (score_all plain_digest new_tracker batch10).1 in
  exists info,
    calculate_batch_refund leads_df = inr info
    /\ (fraud_percentage info
        == 100 * (inject_Z (fraud_count leads_df)
                  / inject_Z (Z.of_nat (length leads_df))))%Q
    /\ ((25 <= fraud_percentage info)%Q ->
        refund_type info = "FULL REFUND"
        /\ (refund_percentage info == 100)%Q)
    /\ ((15 <= fraud_percentage info)%Q /\ (fraud_percentage info < 25)%Q ->
        refund_type info = "PARTIAL REFUND"
        /\ refund_percentage info = fraud_percentage info)
    /\ ((fraud_percentage info < 15)%Q ->
        refund_type info = "NO REFUND"
        /\ (refund_percentage info == 0)%Q).
Proof.
  apply (calculate_batch_refund_tiers
           (score_all plain_digest new_tracker batch10).1).
  vm_compute. discriminate.
Defined.

Example batch10_refund :
  exists info,
    calculate_batch_refund (score_all plain_digest new_tracker batch10).1
    = inr info
    /\ fraudulent_leads info = 2%Z /\ total_leads info = 10%Z
    /\ (fraud_percentage info == 20)%Q
    /\ refund_type info = "PARTIAL REFUND"
    /\ (refund_percentage info == 20)%Q.
Proof.
  eexists. split; [vm_compute; reflexivity|].
  repeat split; reflexivity.
Qed.

(** ** The tracker over a batch *)

Section RunBatch.

Context {A : Type}.
Variable method : tracker -> gmap string string -> A * tracker.

Lemma run_batch_cons self lead rest :
  run_batch method self (lead :: rest)
  = ((method self lead).1 :: (run_batch method (method self lead).2 rest).1,
     (run_batch method (method self lead).2 rest).2).
Proof.
  simpl. destruct (method self lead) as [r self1]. cbn [fst snd].
  destruct (run_batch method self1 rest) as [rs self2]. reflexivity.
Qed.

(** The result for lead [k] is what the method answers on the tracker
    left by the leads before it. *)
Lemma run_batch_lookup self leads k lead :
  leads !! k = Some lead ->
  (run_batch method self leads).1 !! k
  = Some (method (run_batch method self (take k leads)).2 lead).1.
Proof.
  revert self k. induction leads as [|lead0 rest IH]; intros self k Hk.
  - discriminate.
  - rewrite run_batch_cons. destruct k as [|k].
    + simpl in Hk. injection Hk as ->. reflexivity.
    + simpl in Hk. cbn [take]. rewrite run_batch_cons. cbn [fst snd].
      apply (IH _ _ Hk).
Qed.

Lemma run_batch_snoc self leads lead :
  (run_batch method self (leads ++ [lead])).2
  = (method (run_batch method self leads).2 lead).2.
Proof.
  revert self. induction leads as [|lead0 rest IH]; intros self.
  - simpl. destruct (method self lead). reflexivity.
  - change ((lead0 :: rest) ++ [lead])%list
      with (lead0 :: (rest ++ [lead]))%list.
    rewrite !run_batch_cons. cbn [fst snd]. apply IH.
Qed.

End RunBatch.

(** *** Exact duplicates *)

Section Duplicates.

Variable md5_hexdigest : string -> string.

Lemma find_exact_duplicate_spec self lead :
  let h := lead_hash md5_hexdigest lead in
  (find_exact_duplicate md5_hexdigest self lead).1
  = bool_decide (h ∈ seen_hashes self)
  /\ seen_hashes (find_exact_duplicate md5_hexdigest self lead).2
     = seen_hashes self ∪ {[ h ]}.
Proof.
  unfold find_exact_duplicate, lead_hash. cbv zeta.
  case_bool_decide as Hin; cbn [fst snd seen_hashes].
  - split; [reflexivity | set_solver].
  - split; reflexivity.
Qed.

(** After a batch the set holds what it held before and the hash of
    every lead of the batch. *)
Lemma seen_hashes_run_batch self leads :
  seen_hashes (run_batch (find_exact_duplicate md5_hexdigest) self leads).2
  = seen_hashes self ∪ list_to_set (lead_hash md5_hexdigest <$> leads).
Proof.
  revert self. induction leads as [|lead rest IH]; intros self.
  - simpl. set_solver.
  - rewrite run_batch_cons. cbn [fst snd]. rewrite IH.
    destruct (find_exact_duplicate_spec self lead) as [_ ->].
    rewrite fmap_cons, list_to_set_cons. set_solver.
Qed.

Lemma hash_among_earlier (leads : list (gmap string string)) k h :
  h ∈ (list_to_set (lead_hash md5_hexdigest <$> take k leads) : gset string)
  <-> exists j earlier,
        (j < k)%nat /\ leads !! j = Some earlier
        /\ lead_hash md5_hexdigest earlier = h.
Proof.
  rewrite elem_of_list_to_set, list_elem_of_fmap. split.
  - intros (earlier & -> & Hin).
    apply list_elem_of_lookup in Hin as [j Hj].
    apply lookup_take_Some in Hj as [Hj Hlt]. eauto.
  - intros (j & earlier & Hlt & Hj & <-).
    exists earlier. split; [reflexivity|].
    apply list_elem_of_lookup. exists j.
    apply lookup_take_Some. auto.
Qed.

Lemma duplicate_flag_in_batch leads k lead :
  leads !! k = Some lead ->
  let before :=
    (run_batch (find_exact_duplicate md5_hexdigest) new_tracker
       (take k leads)).2 in
  let flag := (find_exact_duplicate md5_hexdigest before lead).1 in
  let after := (find_exact_duplicate md5_hexdigest before lead).2 in
  (run_batch (find_exact_duplicate md5_hexdigest) new_tracker leads).1 !! k
  = Some flag
  /\ (flag = true <->
      exists j earlier,
        (j < k)%nat /\ leads !! j = Some earlier
        /\ lead_hash md5_hexdigest earlier = lead_hash md5_hexdigest lead)
  /\ lead_hash md5_hexdigest lead ∈ seen_hashes after.
Proof.
  intros Hk before flag after.
  destruct (find_exact_duplicate_spec before lead) as [Hflag Hafter].
  fold flag in Hflag. fold after in Hafter.
  split; [apply run_batch_lookup, Hk|]. split.
  - rewrite Hflag, bool_decide_eq_true. unfold before.
    rewrite seen_hashes_run_batch. cbn [new_tracker seen_hashes].
    rewrite <- hash_among_earlier. set_solver.
  - rewrite Hafter. set_solver.
Qed.

End Duplicates.

(** C4: when [find_exact_duplicate] is applied to the leads of a batch
    in order, starting from a fresh tracker, its answer for lead [k] is
    true exactly when the hash of the fingerprint name|email|phone (a
    missing field counting as the empty string) equals that of an earlier
    lead of the batch, and after the call the hash of lead [k] is in the
    set. *)
Theorem find_exact_duplicate_in_batch (md5_hexdigest : string -> string)
  (leads : list (gmap string string)) (k : nat) (lead : gmap string string) :
  leads !! k = Some lead ->
  let before :=
    (run_batch (find_exact_duplicate md5_hexdigest) new_tracker
       (take k leads)).2 in
  let flag := (find_exact_duplicate md5_hexdigest before lead).1 in
  let after := (find_exact_duplicate md5_hexdigest before lead).2 in
  (run_batch (find_exact_duplicate md5_hexdigest) new_tracker leads).1 !! k
  = Some flag
  /\ (flag = true <->
      exists j earlier,
        (j < k)%nat /\ leads !! j = Some earlier
        /\ md5_hexdigest (fingerprint earlier)
           = md5_hexdigest (fingerprint lead))
  /\ md5_hexdigest (fingerprint lead) ∈ seen_hashes after
  /\ fingerprint lead
     = default "" (lead !! "name") ++ "|" ++ default "" (lead !! "email")
       ++ "|" ++ default "" (lead !! "phone").
Proof.
  intros Hk before flag after.
  destruct (duplicate_flag_in_batch md5_hexdigest leads k lead Hk)
    as (Hflag & Hiff & Hin).
  repeat split; try assumption; apply Hiff.
Qed.

Lemma find_exact_duplicate_in_batch_witness :
  (run_batch (find_exact_duplicate plain_digest) new_tracker
     [john; mary; john]).1 !! 2%nat = Some true
  /\ (run_batch (find_exact_duplicate plain_digest) new_tracker
        [john; mary; john]).1 !! 0%nat = Some false.
Proof.
  split.
  - destruct (find_exact_duplicate_in_batch plain_digest [john; mary; john]
                2 john eq_refl) as (Hflag & _).
    exact Hflag.
  - destruct (find_exact_duplicate_in_batch plain_digest [john; mary; john]
                0 john eq_refl) as (Hflag & _).
    exact Hflag.
Defined.

(** The first lead carrying a fingerprint is never flagged. *)
Corollary first_occurrence_not_flagged (md5_hexdigest : string -> string)
  (leads : list (gmap string string)) (k : nat) (lead : gmap string string) :
  leads !! k = Some lead ->
  (forall j earlier, (j < k)%nat -> leads !! j = Some earlier ->
     lead_hash md5_hexdigest earlier <> lead_hash md5_hexdigest lead) ->
  (run_batch (find_exact_duplicate md5_hexdigest) new_tracker leads).1 !! k
  = Some false.
Proof.
  intros Hk Hfirst.
  destruct (duplicate_flag_in_batch md5_hexdigest leads k lead Hk)
    as (Hflag & Hiff & _).
  rewrite Hflag. f_equal. apply not_true_is_false. intros Htrue.
  apply Hiff in Htrue as (j & earlier & Hlt & Hj & Heq).
  exact (Hfirst j earlier Hlt Hj Heq).
Qed.

(** Every later lead with the same fingerprint is flagged. *)
Corollary later_occurrence_flagged (md5_hexdigest : string -> string)
  (leads : list (gmap string string)) (j k : nat)
  (earlier lead : gmap string string) :
  (j < k)%nat -> leads !! j = Some earlier -> leads !! k = Some lead ->
  fingerprint earlier = fingerprint lead ->
  (run_batch (find_exact_duplicate md5_hexdigest) new_tracker leads).1 !! k
  = Some true.
Proof.
  intros Hlt Hj Hk Heq.
  destruct (duplicate_flag_in_batch md5_hexdigest leads k lead Hk)
    as (Hflag & Hiff & _).
  rewrite Hflag. f_equal. apply Hiff.
  exists j, earlier. unfold lead_hash. rewrite Heq. auto.
Qed.

(** *** Repeated contacts *)

Lemma count_of_incr (d : gmap string nat) (key other : string) :
  count_of (incr d key) other
  = (count_of d other + if String.eqb key other then 1 else 0)%nat.
Proof.
  unfold incr, count_of.
  destruct (String.eqb_spec key other) as [->|Hne].
  - rewrite lookup_insert_eq. simpl. lia.
  - rewrite lookup_insert_ne by assumption. lia.
Qed.

(** The answer of [check_repeated_contact] is read off the counters
    after the increment. *)
Lemma check_repeated_contact_spec self lead :
  let after := (check_repeated_contact self lead).2 in
  let phone := get lead "phone" in
  let email := get lead "email" in
  seen_phones after = incr (seen_phones self) phone
  /\ seen_emails after = incr (seen_emails self) email
  /\ (check_repeated_contact self lead).1
     = ((3 <=? count_of (seen_phones after) phone)%nat,
        (3 <=? count_of (seen_emails after) email)%nat).
Proof. repeat split. Qed.

(** After a batch each counter has grown by the number of leads of the
    batch that carry the value. *)
Lemma counters_run_batch self leads (lead : gmap string string) :
  let after := (run_batch check_repeated_contact self leads).2 in
  count_of (seen_phones after) (get lead "phone")
  = (count_of (seen_phones self) (get lead "phone")
     + occurrences "phone" lead leads)%nat
  /\ count_of (seen_emails after) (get lead "email")
     = (count_of (seen_emails self) (get lead "email")
        + occurrences "email" lead leads)%nat.
Proof.
  cbv zeta. revert self. induction leads as [|lead0 rest IH]; intros self.
  - unfold occurrences. simpl. split; lia.
  - rewrite run_batch_cons. cbn [fst snd].
    destruct (IH (check_repeated_contact self lead0).2) as [IHp IHe].
    rewrite IHp, IHe.
    destruct (check_repeated_contact_spec self lead0) as (-> & -> & _).
    rewrite !count_of_incr. unfold occurrences. cbn [List.filter].
    split.
    + destruct (String.eqb (get lead0 "phone") (get lead "phone"));
        simpl; lia.
    + destruct (String.eqb (get lead0 "email") (get lead "email"));
        simpl; lia.
Qed.

Lemma occurrences_snoc key (lead : gmap string string) leads :
  occurrences key lead (leads ++ [lead])%list = S (occurrences key lead leads).
Proof.
  unfold occurrences. rewrite List.filter_app, List.length_app.
  cbn [List.filter]. rewrite String.eqb_refl. simpl. lia.
Qed.

Lemma repeat_flags_in_batch leads k lead :
  leads !! k = Some lead ->
  let before :=
    (run_batch check_repeated_contact new_tracker (take k leads)).2 in
  let flags := (check_repeated_contact before lead).1 in
  let after := (check_repeated_contact before lead).2 in
  let phone := get lead "phone" in
  let email := get lead "email" in
  count_of (seen_phones after) phone = S (count_of (seen_phones before) phone)
  /\ count_of (seen_emails after) email
     = S (count_of (seen_emails before) email)
  /\ count_of (seen_phones after) phone
     = occurrences "phone" lead (take (S k) leads)
  /\ count_of (seen_emails after) email
     = occurrences "email" lead (take (S k) leads)
  /\ (flags.1 = true <-> (3 <= count_of (seen_phones after) phone)%nat)
  /\ (flags.2 = true <-> (3 <= count_of (seen_emails after) email)%nat)
  /\ (run_batch check_repeated_contact new_tracker leads).1 !! k = Some flags.
Proof.
  intros Hk before flags after phone email.
  destruct (check_repeated_contact_spec before lead) as (Hp & He & Hf).
  fold after phone email in Hp, He, Hf. fold flags in Hf.
  destruct (counters_run_batch new_tracker (take k leads) lead) as [Cp Ce].
  fold before phone email in Cp, Ce.
  assert (Hp1 : count_of (seen_phones after) phone
                = S (count_of (seen_phones before) phone)).
  { rewrite Hp, count_of_incr, String.eqb_refl. lia. }
  assert (He1 : count_of (seen_emails after) email
                = S (count_of (seen_emails before) email)).
  { rewrite He, count_of_incr, String.eqb_refl. lia. }
  rewrite (take_S_r _ _ _ Hk), !occurrences_snoc.
  repeat split.
  - exact Hp1.
  - exact He1.
  - rewrite Hp1, Cp. reflexivity.
  - rewrite He1, Ce. reflexivity.
  - rewrite Hf. cbn [fst]. intros H. apply Nat.leb_le, H.
  - rewrite Hf. cbn [fst]. intros H. apply Nat.leb_le, H.
  - rewrite Hf. cbn [snd]. intros H. apply Nat.leb_le, H.
  - rewrite Hf. cbn [snd]. intros H. apply Nat.leb_le, H.
  - apply run_batch_lookup, Hk.
Qed.

(** C5: when [check_repeated_contact] is applied to the leads of a batch
    in order, starting from a fresh tracker, the call for lead [k] first
    adds one to the counters of that lead's phone and email, which then
    count the leads up to and including [k] that carry the value, and
    each flag it returns is true exactly when the counter after the
    increment is at least 3. *)
Theorem check_repeated_contact_in_batch
  (leads : list (gmap string string)) (k : nat) (lead : gmap string string) :
  leads !! k = Some lead ->
  let before :=
    (run_batch check_repeated_contact new_tracker (take k leads)).2 in
  let flags := (check_repeated_contact before lead).1 in
  let after := (check_repeated_contact before lead).2 in
  let phone := get lead "phone" in
  let email := get lead "email" in
  count_of (seen_phones after) phone = S (count_of (seen_phones before) phone)
  /\ count_of (seen_emails after) email
     = S (count_of (seen_emails before) email)
  /\ count_of (seen_phones after) phone
     = occurrences "phone" lead (take (S k) leads)
  /\ count_of (seen_emails after) email
     = occurrences "email" lead (take (S k) leads)
  /\ (flags.1 = true <-> (3 <= count_of (seen_phones after) phone)%nat)
  /\ (flags.2 = true <-> (3 <= count_of (seen_emails after) email)%nat)
  /\ (run_batch check_repeated_contact new_tracker leads).1 !! k = Some flags.
Proof. exact (repeat_flags_in_batch leads k lead). Qed.

Lemma check_repeated_contact_in_batch_witness :
  (run_batch check_repeated_contact new_tracker [john; john; mary; john]).1
    !! 3%nat = Some (true, true).
Proof.
  destruct (check_repeated_contact_in_batch [john; john; mary; john] 3 john
              eq_refl) as (_ & _ & _ & _ & _ & _ & Hflags).
  exact Hflags.
Defined.

(** The first two leads carrying a phone number are not flagged for it;
    the third and all later ones are. *)
Corollary repeated_phone_from_third (leads : list (gmap string string))
  (k : nat) (lead : gmap string string) :
  leads !! k = Some lead ->
  exists flags,
    (run_batch check_repeated_contact new_tracker leads).1 !! k = Some flags
    /\ (flags.1 = true
        <-> (3 <= occurrences "phone" lead (take (S k) leads))%nat)
    /\ (flags.2 = true
        <-> (3 <= occurrences "email" lead (take (S k) leads))%nat).
Proof.
  intros Hk.
  destruct (repeat_flags_in_batch leads k lead Hk)
    as (_ & _ & Hp & He & Hfp & Hfe & Hflags).
  eexists. split; [exact Hflags|].
  rewrite <- Hp, <- He. split; assumption.
Qed.

(** *** Three identical records *)

Example three_identical_records :
  (run_batch (find_exact_duplicate plain_digest) new_tracker
     [john; john; john]).1 = [false; true; true]
  /\ (run_batch check_repeated_contact new_tracker [john; john; john]).1
     = [(false, false); (false, false); (true, true)]
  /\ map fraud_score (score_all plain_digest new_tracker [john; john; john]).1
     = [0; 15; 35]%Z.
Proof. repeat split; vm_compute; reflexivity. Qed.

(** * More of the code *)

(** ** The regular expression matcher *)

Lemma append_empty_r (s : string) : s ++ "" = s.
Proof.
  induction s as [|c s IH]; [reflexivity|].
  rewrite append_String, IH. reflexivity.
Qed.

Lemma append_assoc (s t u : string) : (s ++ t) ++ u = s ++ (t ++ u).
Proof.
  induction s as [|c s IH]; [reflexivity|].
  rewrite !append_String, IH. reflexivity.
Qed.

Lemma append_eq_empty (s t : string) : s ++ t = "" -> s = "" /\ t = "".
Proof.
  destruct s as [|c s]; [rewrite append_empty; auto|].
  rewrite append_String. discriminate.
Qed.

Lemma nullable_matches r : Re.nullable r = true <-> matches r "".
Proof.
  induction r as [| |p|a IHa b IHb|a IHa b IHb|a IHa]; simpl.
  - split; [discriminate | inversion 1].
  - split; [constructor | reflexivity].
  - split; [discriminate | inversion 1].
  - rewrite andb_true_iff, IHa, IHb. split.
    + intros [Ha Hb]. change "" with ("" ++ ""). constructor; assumption.
    + inversion 1 as [| |? ? s t Hs Ht Heq| | | |]; subst.
      match goal with H : _ ++ _ = "" |- _ =>
        apply append_eq_empty in H as [-> ->] end.
      auto.
  - rewrite orb_true_iff, IHa, IHb. split.
    + intros [H|H]; [apply matches_alt_l | apply matches_alt_r]; assumption.
    + inversion 1; subst; auto.
  - split; [constructor | reflexivity].
Qed.

Lemma deriv_sound c r s : matches (Re.deriv c r) s -> matches r (String c s).
Proof.
  revert s. induction r as [| |p|a IHa b IHb|a IHa b IHb|a IHa];
    simpl; intros s H.
  - inversion H.
  - inversion H.
  - destruct (p c) eqn:Hp; inversion H; subst. constructor. exact Hp.
  - destruct (Re.nullable a) eqn:Hn.
    + inversion H as [| | | ? ? ? H1 | ? ? ? H1 | |]; subst.
      * inversion H1 as [| |? ? s1 s2 Hs1 Hs2| | | |]; subst.
        change (String c (s1 ++ s2)) with (String c s1 ++ s2).
        constructor; auto.
      * change (String c s) with ("" ++ String c s).
        constructor; [apply nullable_matches, Hn | auto].
    + inversion H as [| |? ? s1 s2 Hs1 Hs2| | | |]; subst.
      change (String c (s1 ++ s2)) with (String c s1 ++ s2).
      constructor; auto.
  - inversion H; subst; [apply matches_alt_l | apply matches_alt_r]; auto.
  - inversion H as [| |? ? s1 s2 Hs1 Hs2| | | |]; subst.
    change (String c (s1 ++ s2)) with (String c s1 ++ s2).
    constructor; auto.
Qed.

Lemma deriv_complete c r w :
  matches r w -> forall s, w = String c s -> matches (Re.deriv c r) s.
Proof.
  induction 1 as [|p d Hp|a b s1 s2 H1 IH1 H2 IH2|a b s1 H1 IH1|a b s1 H1 IH1
                 |a|a s1 s2 H1 IH1 H2 IH2]; intros s Heq; simpl.
  - discriminate.
  - injection Heq as -> <-. rewrite Hp. constructor.
  - destruct s1 as [|d s1].
    + rewrite append_empty in Heq. subst s2.
      apply nullable_matches in H1. rewrite H1.
      apply matches_alt_r. apply IH2. reflexivity.
    + rewrite append_String in Heq. injection Heq as -> <-.
      pose proof (IH1 s1 eq_refl) as Hd.
      destruct (Re.nullable a).
      * apply matches_alt_l. constructor; assumption.
      * constructor; assumption.
  - apply matches_alt_l. auto.
  - apply matches_alt_r. auto.
  - discriminate.
  - destruct s1 as [|d s1].
    + rewrite append_empty in Heq. apply IH2. exact Heq.
    + rewrite append_String in Heq. injection Heq as -> <-.
      constructor; auto.
Qed.

(** The derivative matcher decides membership in the language of the
    expression. *)
Lemma fullmatch_matches r s : Re.fullmatch r s = true <-> matches r s.
Proof.
  revert r. induction s as [|c s IH]; intros r; simpl.
  - apply nullable_matches.
  - rewrite IH. split.
    + apply deriv_sound.
    + intros H. eapply deriv_complete; [exact H | reflexivity].
Qed.

Lemma matches_cat_iff a b s :
  matches (Re.Cat a b) s
  <-> exists s1 s2, s = s1 ++ s2 /\ matches a s1 /\ matches b s2.
Proof.
  split.
  - inversion 1; subst. eauto.
  - intros (s1 & s2 & -> & H1 & H2). constructor; assumption.
Qed.

Lemma matches_class_iff p s :
  matches (Re.Class p) s <-> exists c, s = String c "" /\ p c = true.
Proof.
  split.
  - inversion 1; subst. eauto.
  - intros (c & -> & Hp). constructor. exact Hp.
Qed.

Lemma matches_lit_iff c s : matches (Re.Lit c) s <-> s = String c "".
Proof.
  unfold Re.Lit. rewrite matches_class_iff. split.
  - intros (d & -> & Heq). apply Ascii.eqb_eq in Heq. subst. reflexivity.
  - intros ->. exists c. split; [reflexivity | apply Ascii.eqb_refl].
Qed.

Lemma matches_star_class p s :
  matches (Re.Star (Re.Class p)) s <-> all p s = true.
Proof.
  split.
  - intros H. remember (Re.Star (Re.Class p)) as r eqn:Hr.
    induction H as [| | | | | |a s1 s2 H1 _ H2 IH2]; try discriminate.
    + reflexivity.
    + injection Hr as ->. inversion H1; subst.
      rewrite append_String, append_empty. simpl.
      rewrite andb_true_iff. auto.
  - induction s as [|c s IH]; simpl; intros H.
    + constructor.
    + apply andb_true_iff in H as [Hc Hs].
      change (String c s) with (String c "" ++ s).
      constructor; [constructor; exact Hc | auto].
Qed.

Lemma matches_plus_class p s :
  matches (Re.Plus (Re.Class p)) s <-> s <> "" /\ all p s = true.
Proof.
  unfold Re.Plus. rewrite matches_cat_iff. split.
  - intros (s1 & s2 & -> & H1 & H2).
    apply matches_class_iff in H1 as (c & -> & Hc).
    apply matches_star_class in H2.
    rewrite append_String, append_empty. simpl.
    rewrite Hc, H2. split; [discriminate | reflexivity].
  - intros [Hne Hall]. destruct s as [|c s]; [contradiction|].
    simpl in Hall. apply andb_true_iff in Hall as [Hc Hs].
    exists (String c ""), s. repeat split.
    + apply matches_class_iff. eauto.
    + apply matches_star_class, Hs.
Qed.

Lemma matches_tld s :
  matches (Re.Cat (Re.Class re_alpha)
             (Re.Cat (Re.Class re_alpha) (Re.Star (Re.Class re_alpha)))) s
  <-> (2 <= String.length s)%nat /\ all re_alpha s = true.
Proof.
  rewrite matches_cat_iff. split.
  - intros (s1 & s2 & -> & H1 & H2).
    apply matches_cat_iff in H2 as (s3 & s4 & -> & H3 & H4).
    apply matches_class_iff in H1 as (c1 & -> & Hc1).
    apply matches_class_iff in H3 as (c2 & -> & Hc2).
    apply matches_star_class in H4.
    rewrite !append_String, !append_empty. simpl.
    rewrite Hc1, Hc2, H4. split; [lia | reflexivity].
  - intros [Hlen Hall].
    destruct s as [|c1 [|c2 t]]; simpl in Hlen; try lia.
    simpl in Hall.
    apply andb_true_iff in Hall as [Hc1 Hall].
    apply andb_true_iff in Hall as [Hc2 Ht].
    exists (String c1 ""), (String c2 t). repeat split.
    + apply matches_class_iff. eauto.
    + apply matches_cat_iff. exists (String c2 ""), t. repeat split.
      * apply matches_class_iff. eauto.
      * apply matches_star_class, Ht.
Qed.

Lemma email_pattern_shape s : matches email_pattern s <-> email_shape s.
Proof.
  unfold email_pattern, email_shape. split.
  - intros H.
    apply matches_cat_iff in H as (local & s1 & -> & Hl & H).
    apply matches_cat_iff in H as (at_ & s2 & -> & Ha & H).
    apply matches_cat_iff in H as (domain & s3 & -> & Hd & H).
    apply matches_cat_iff in H as (dot & tld & -> & Hdot & Ht).
    apply matches_lit_iff in Ha as ->. apply matches_lit_iff in Hdot as ->.
    apply matches_plus_class in Hl as [Hl1 Hl2].
    apply matches_plus_class in Hd as [Hd1 Hd2].
    apply matches_tld in Ht as [Ht1 Ht2].
    exists local, domain, tld. repeat split; assumption.
  - intros (local & domain & tld & -> & Hl1 & Hl2 & Hd1 & Hd2 & Ht1 & Ht2).
    apply matches_cat_iff. exists local, ("@" ++ domain ++ "." ++ tld).
    repeat split; [apply matches_plus_class; auto|].
    apply matches_cat_iff. exists "@", (domain ++ "." ++ tld).
    repeat split; [apply matches_lit_iff; reflexivity|].
    apply matches_cat_iff. exists domain, ("." ++ tld).
    repeat split; [apply matches_plus_class; auto|].
    apply matches_cat_iff. exists ".", tld.
    repeat split; [apply matches_lit_iff; reflexivity|].
    apply matches_tld. auto.
Qed.

Lemma email_shape_nonempty s : email_shape s -> s <> "".
Proof.
  intros (local & domain & tld & -> & Hl & _) Heq.
  apply append_eq_empty in Heq as [-> _]. contradiction.
Qed.

Lemma drop_final_newline_Some s s' :
  Re.drop_final_newline s = Some s' <-> s = s' ++ newline.
Proof.
  revert s'. induction s as [|c s IH]; intros s'.
  - simpl. split; [discriminate|].
    intros H. symmetry in H. apply append_eq_empty in H as [_ H].
    discriminate.
  - destruct s as [|d s].
    + simpl. destruct (Ascii.eqb_spec c "010") as [->|Hc]; split.
      * intros [= <-]. reflexivity.
      * destruct s' as [|e [|f s']]; try discriminate; reflexivity.
      * discriminate.
      * destruct s' as [|e [|f s']]; try discriminate.
        intros [= ->]. contradiction.
    + change (Re.drop_final_newline (String c (String d s)))
        with (option_map (String c) (Re.drop_final_newline (String d s))).
      split.
      * destruct (Re.drop_final_newline (String d s)) as [t|];
          [|discriminate].
        intros [= <-]. rewrite (proj1 (IH t) eq_refl). reflexivity.
      * destruct s' as [|e s'].
        { discriminate. }
        rewrite append_String. intros [= -> Hs].
        apply IH in Hs. rewrite Hs. reflexivity.
Qed.

Lemma validate_email_format_iff (email : string) :
  validate_email_format email = true
  <-> email_shape email
      \/ exists e, email = e ++ newline /\ email_shape e.
Proof.
  unfold validate_email_format, Re.match_anchored.
  destruct email as [|c email].
  - simpl. split; [discriminate|].
    intros [H|(e & He & H)].
    + exfalso. exact (email_shape_nonempty _ H eq_refl).
    + symmetry in He. apply append_eq_empty in He as [_ He]. discriminate.
  - cbn [truthy negb]. rewrite orb_true_iff, fullmatch_matches,
      email_pattern_shape.
    split; intros [H|H]; auto; right.
    + destruct (Re.drop_final_newline (String c email)) as [e|] eqn:He;
        [|discriminate].
      exists e. split; [apply drop_final_newline_Some, He|].
      apply email_pattern_shape, fullmatch_matches, H.
    + destruct H as (e & He & H).
      apply drop_final_newline_Some in He. rewrite He.
      apply fullmatch_matches, email_pattern_shape, H.
Qed.

(** X2: [validate_email_format] accepts exactly the strings of the shape
    local@domain.tld (a non-empty local part of letters, digits and
    [._%+-], a non-empty domain of letters, digits, dots and hyphens, and
    at least two letters after the last dot) and those strings followed
    by one newline. *)
Theorem validate_email_format_shape (email : string) :
  validate_email_format email = true
  <-> email_shape email
      \/ exists e, email = e ++ newline /\ email_shape e.
Proof. exact (validate_email_format_iff email). Qed.

(** ** The rule predicates *)




Lemma split_nonempty sep s : split sep s <> [].
Proof.
  destruct s as [|c s]; simpl; [discriminate|].
  destruct (Ascii.eqb c sep); [discriminate|].
  destruct (split sep s); discriminate.
Qed.

Lemma split_no_sep sep s :
  any (Ascii.eqb sep) s = false -> split sep s = [s].
Proof.
  induction s as [|c s IH]; [reflexivity|].
  cbn [any split]. intros H. apply orb_false_elim in H as [Hc Hs].
  rewrite Ascii.eqb_sym, Hc, (IH Hs). reflexivity.
Qed.

(** Text without the separator, appended to a string, extends the last
    piece. *)
Lemma split_append sep s t :
  any (Ascii.eqb sep) t = false ->
  split sep (s ++ t)
  = (removelast (split sep s)
     ++ [(List.last (split sep s) "" ++ t)%string])%list.
Proof.
  intros Ht. induction s as [|c s IH].
  - rewrite append_empty. rewrite (split_no_sep _ _ Ht). reflexivity.
  - rewrite append_String. cbn [split]. rewrite IH.
    pose proof (split_nonempty sep s) as Hne.
    destruct (split sep s) as [|h [|x tl]]; [contradiction| |];
      destruct (Ascii.eqb c sep); reflexivity.
Qed.

Lemma last_split_append sep s t :
  any (Ascii.eqb sep) t = false ->
  List.last (split sep (s ++ t)) "" = List.last (split sep s) "" ++ t.
Proof.
  intros Ht. rewrite (split_append _ _ _ Ht). apply List.last_last.
Qed.

(** What follows the last separator is the last piece. *)
Lemma split_after_sep sep s t :
  any (Ascii.eqb sep) t = false ->
  exists pre, pre <> [] /\ split sep (s ++ String sep t) = (pre ++ [t])%list.
Proof.
  intros Ht. induction s as [|c s (pre & Hpre & IH)].
  - rewrite append_empty. cbn [split]. rewrite Ascii.eqb_refl.
    rewrite (split_no_sep _ _ Ht). exists [""]. split; [discriminate|].
    reflexivity.
  - rewrite append_String. cbn [split]. rewrite IH.
    destruct (Ascii.eqb c sep).
    + exists ("" :: pre). split; [discriminate | reflexivity].
    + destruct pre as [|h pre]; [contradiction|].
      exists (String c h :: pre). split; [discriminate | reflexivity].
Qed.

Lemma lower_append s t : lower (s ++ t) = lower s ++ lower t.
Proof.
  induction s as [|c s IH]; [reflexivity|].
  rewrite append_String. simpl. rewrite IH. reflexivity.
Qed.

Lemma any_append p s t : any p (s ++ t) = any p s || any p t.
Proof.
  induction s as [|c s IH]; [reflexivity|].
  rewrite append_String. simpl. rewrite IH, orb_assoc. reflexivity.
Qed.

Lemma disposable_domains_one_line d :
  d ∈ disposable_domains -> any (Ascii.eqb "010") d = false.
Proof.
  unfold disposable_domains.
  rewrite !elem_of_union, !elem_of_singleton.
  intros H. repeat (destruct H as [H|H]); subst; reflexivity.
Qed.

Lemma is_disposable_email_newline e : is_disposable_email (e ++ newline) = false.
Proof.
  unfold is_disposable_email.
  destruct (truthy (e ++ newline)); [|reflexivity]. cbn [negb]. cbv zeta.
  rewrite last_split_append by reflexivity.
  rewrite lower_append.
  apply bool_decide_eq_false_2. intros Hin.
  apply disposable_domains_one_line in Hin.
  rewrite any_append in Hin. apply orb_false_elim in Hin as [_ Hin].
  discriminate.
Qed.

(** X3: a newline appended to a well-formed address leaves it well formed,
    since [$] also matches before a final newline, and
    [is_disposable_email] then never recognises the domain: the email
    checks of [score_lead] make no award for it. *)
Theorem newline_evades_email_checks (e : string) :
  email_shape e ->
  validate_email_format (e ++ newline) = true
  /\ is_disposable_email (e ++ newline) = false
  /\ forall l, email_step (e ++ newline) l = l.
Proof.
  intros He.
  assert (Hv : validate_email_format (e ++ newline) = true).
  { apply validate_email_format_iff. right. eauto. }
  pose proof (is_disposable_email_newline e) as Hd.
  repeat split; try assumption.
  intros l. unfold email_step. rewrite Hv, Hd.
  destruct (truthy (e ++ newline)) eqn:Ht; [reflexivity|].
  unfold validate_email_format in Hv. rewrite Ht in Hv. discriminate.
Qed.

Lemma newline_evades_email_checks_witness :
  is_disposable_email "x@mailinator.com" = true
  /\ validate_email_format ("x@mailinator.com" ++ newline) = true
  /\ is_disposable_email ("x@mailinator.com" ++ newline) = false
  /\ forall l, email_step ("x@mailinator.com" ++ newline) l = l.
Proof.
  split; [reflexivity|].
  apply (newline_evades_email_checks "x@mailinator.com").
  exists "x", "mailinator", "com".
  repeat split; try reflexivity; try discriminate. simpl. lia.
Defined.

(** X4: [is_disposable_email] looks only at what follows the last [@] and
    ignores its case: the answer is whether the lower-cased domain is in
    the list. *)
Theorem is_disposable_email_domain (local domain : string) :
  any (Ascii.eqb "@") domain = false ->
  is_disposable_email (local ++ "@" ++ domain)
  = bool_decide (lower domain ∈ disposable_domains).
Proof.
  intros Hd. unfold is_disposable_email.
  replace (truthy (local ++ "@" ++ domain)) with true
    by (destruct local; reflexivity).
  cbn [negb]. cbv zeta.
  change ("@" ++ domain) with (String "@" domain).
  destruct (split_after_sep "@" local domain Hd) as (pre & _ & ->).
  rewrite List.last_last. reflexivity.
Qed.

Lemma is_disposable_email_domain_witness :
  is_disposable_email ("a@b" ++ "@" ++ "YopMail.COM") = true.
Proof.
  rewrite (is_disposable_email_domain "a@b" "YopMail.COM"); reflexivity.
Defined.

Lemma isdigit_lower_char c : isdigit (lower_char c) = isdigit c.
Proof. each_char c; reflexivity. Qed.

Lemma isdigit_not_isspace c : isdigit c = true -> isspace c = false.
Proof. each_char c; simpl; intros H; reflexivity || discriminate H. Qed.

Lemma lower_char_idempotent c : lower_char (lower_char c) = lower_char c.
Proof. each_char c; reflexivity. Qed.

Lemma lower_idempotent s : lower (lower s) = lower s.
Proof.
  induction s as [|c s IH]; [reflexivity|].
  simpl. rewrite lower_char_idempotent, IH. reflexivity.
Qed.

Lemma any_isdigit_lower s : any isdigit (lower s) = any isdigit s.
Proof.
  induction s as [|c s IH]; [reflexivity|].
  simpl. rewrite isdigit_lower_char, IH. reflexivity.
Qed.

Section Strip.

Variable p : ascii -> bool.
Hypothesis p_not_space : forall c, p c = true -> isspace c = false.

Lemma space_not_p c : isspace c = true -> p c = false.
Proof.
  intros Hs. destruct (p c) eqn:Hp; [|reflexivity].
  rewrite (p_not_space c Hp) in Hs. discriminate.
Qed.

Lemma any_lstrip s : any p (lstrip s) = any p s.
Proof.
  induction s as [|c s IH]; [reflexivity|].
  simpl. destruct (isspace c) eqn:Hs; [|reflexivity].
  rewrite (space_not_p c Hs), IH. reflexivity.
Qed.

Lemma any_rstrip s : any p (rstrip s) = any p s.
Proof.
  induction s as [|c s IH]; [reflexivity|].
  simpl. destruct (rstrip s) as [|d r].
  - rewrite <- IH. destruct (isspace c) eqn:Hs; simpl.
    + rewrite (space_not_p c Hs). reflexivity.
    + reflexivity.
  - rewrite <- IH. reflexivity.
Qed.

(** Stripping white space keeps every character that is not white
    space. *)
Lemma any_strip s : any p (strip s) = any p s.
Proof. unfold strip. rewrite any_rstrip, any_lstrip. reflexivity. Qed.

End Strip.

(** X5: a name with a digit anywhere in it is gibberish for
    [is_gibberish_name]. *)
Theorem digit_name_is_gibberish (name : string) :
  any isdigit name = true -> is_gibberish_name name = true.
Proof.
  intros Hd. unfold is_gibberish_name.
  destruct (truthy name); [|reflexivity]. cbn [negb]. cbv zeta.
  rewrite (any_strip isdigit isdigit_not_isspace), any_isdigit_lower, Hd.
  repeat case_match; reflexivity.
Qed.

Lemma digit_name_is_gibberish_witness :
  is_gibberish_name "Agent 7 Smith" = true.
Proof. apply (digit_name_is_gibberish "Agent 7 Smith"). reflexivity. Defined.

(** X6: [is_gibberish_name] does not depend on the case of the letters. *)
Theorem is_gibberish_name_ignores_case (name : string) :
  is_gibberish_name (lower name) = is_gibberish_name name.
Proof.
  unfold is_gibberish_name. rewrite lower_idempotent.
  destruct name; reflexivity.
Qed.

(** ** All outcomes of [score_lead] *)

Lemma score_lead_outcome (md5_hexdigest : string -> string) self lead :
  (score_lead md5_hexdigest self lead).1
  = outcome (signals_of md5_hexdigest self lead).
Proof.
  rewrite score_lead_finish, score_lead_upto_name_pipeline. reflexivity.
Qed.

Lemma both_true f : both f = true -> forall b, f b = true.
Proof.
  unfold both. intros H b. apply andb_true_iff in H as [Ht Hf].
  destruct b; assumption.
Qed.

Lemma for_all_signals_true check :
  for_all_signals check = true -> forall s, check s = true.
Proof.
  intros H [a b c d e f g h i j]. unfold for_all_signals in H.
  apply (both_true _) with (b := a) in H.
  apply (both_true _) with (b := b) in H.
  apply (both_true _) with (b := c) in H.
  apply (both_true _) with (b := d) in H.
  apply (both_true _) with (b := e) in H.
  apply (both_true _) with (b := f) in H.
  apply (both_true _) with (b := g) in H.
  apply (both_true _) with (b := h) in H.
  apply (both_true _) with (b := i) in H.
  apply (both_true _) with (b := j) in H.
  exact H.
Qed.

(** ** Scoring a batch *)

Section ScoreBatch.

Variable md5_hexdigest : string -> string.

(** What one call of [score_lead] does to the tracker. *)
Lemma score_lead_tracker self lead :
  let after := (score_lead md5_hexdigest self lead).2 in
  seen_phones after = incr (seen_phones self) (get lead "phone")
  /\ seen_emails after = incr (seen_emails self) (get lead "email")
  /\ seen_hashes after
     = seen_hashes self ∪ {[ lead_hash md5_hexdigest lead ]}.
Proof.
  unfold score_lead, score_lead_upto_name, check_repeated_contact,
    find_exact_duplicate, lead_hash.
  cbv zeta. case_bool_decide as Hin; cbn [snd seen_phones seen_emails seen_hashes].
  - repeat split. set_solver.
  - repeat split.
Qed.

Lemma score_all_tracker self leads (lead : gmap string string) :
  let after := (run_batch (score_lead md5_hexdigest) self leads).2 in
  count_of (seen_phones after) (get lead "phone")
  = (count_of (seen_phones self) (get lead "phone")
     + occurrences "phone" lead leads)%nat
  /\ count_of (seen_emails after) (get lead "email")
     = (count_of (seen_emails self) (get lead "email")
        + occurrences "email" lead leads)%nat
  /\ seen_hashes after
     = seen_hashes self ∪ list_to_set (lead_hash md5_hexdigest <$> leads).
Proof.
  cbv zeta. revert self. induction leads as [|lead0 rest IH]; intros self.
  - unfold occurrences. simpl. repeat split; try lia. set_solver.
  - rewrite run_batch_cons. cbn [fst snd].
    destruct (IH (score_lead md5_hexdigest self lead0).2) as (IHp & IHe & IHh).
    rewrite IHp, IHe, IHh.
    destruct (score_lead_tracker self lead0) as (-> & -> & ->).
    rewrite !count_of_incr. unfold occurrences. cbn [List.filter].
    repeat split.
    + destruct (String.eqb (get lead0 "phone") (get lead "phone"));
        simpl; lia.
    + destruct (String.eqb (get lead0 "email") (get lead "email"));
        simpl; lia.
    + rewrite fmap_cons, list_to_set_cons. set_solver.
Qed.

(** The result for lead [k] of a batch is the outcome of the answers read
    off the batch. *)
Lemma score_all_lookup leads k lead :
  leads !! k = Some lead ->
  (score_all md5_hexdigest new_tracker leads).1 !! k
  = Some (outcome (batch_signals md5_hexdigest leads k lead)).
Proof.
  intros Hk. unfold score_all.
  rewrite (run_batch_lookup _ _ _ _ _ Hk), score_lead_outcome.
  f_equal. f_equal.
  set (before := (run_batch (score_lead md5_hexdigest) new_tracker
                    (take k leads)).2).
  destruct (score_all_tracker new_tracker (take k leads) lead)
    as (Hp & He & Hh).
  fold before in Hp, He, Hh. cbn [new_tracker seen_phones seen_emails
                                    seen_hashes] in Hp, He, Hh.
  unfold count_of at 2 in Hp. unfold count_of at 2 in He.
  rewrite lookup_empty in Hp, He. cbn [default] in Hp, He.
  unfold signals_of, batch_signals, repeat_flags, duplicate_flag.
  rewrite (take_S_r _ _ _ Hk), !occurrences_snoc.
  destruct (check_repeated_contact_spec before lead) as (Hcp & Hce & ->).
  destruct (find_exact_duplicate_spec md5_hexdigest
              (check_repeated_contact before lead).2 lead) as [-> _].
  cbn [fst snd]. rewrite Hcp, Hce, !count_of_incr, !String.eqb_refl, Hp, He.
  replace (seen_hashes (check_repeated_contact before lead).2)
    with (seen_hashes before) by reflexivity.
  rewrite Hh, !Nat.add_1_r.
  f_equal. apply bool_decide_ext. set_solver.
Qed.

End ScoreBatch.

(** ** What [score_lead] can return *)

Lemma outcome_range s :
  (0 <= fraud_score (outcome s) <= 75)%Z
  /\ (fraud_score (outcome s) mod 5 = 0)%Z.
Proof.
  pose proof (for_all_signals_true
                (fun s => (0 <=? fraud_score (outcome s))%Z
                          && (fraud_score (outcome s) <=? 75)%Z
                          && (fraud_score (outcome s) mod 5 =? 0)%Z)
                eq_refl s) as H.
  cbv beta in H. rewrite !andb_true_iff in H. destruct H as [[H1 H2] H3].
  apply Z.leb_le in H1, H2. apply Z.eqb_eq in H3. auto.
Qed.

(** X7: [fraud_score] is a multiple of 5 between 0 and 75; 75 is reached
    by the third of three identical leads with no name, a malformed email
    and a malformed phone. *)
Theorem score_lead_range (md5_hexdigest : string -> string) :
  (forall self lead,
     let r := (score_lead md5_hexdigest self lead).1 in
     (0 <= fraud_score r <= 75)%Z /\ (fraud_score r mod 5 = 0)%Z)
  /\ (exists r,
        (score_all md5_hexdigest new_tracker
           [worst_lead; worst_lead; worst_lead]).1 !! 2%nat = Some r
        /\ fraud_score r = 75%Z).
Proof.
  split.
  - intros self lead r. subst r. rewrite score_lead_outcome.
    apply outcome_range.
  - eexists. split.
    + apply score_all_lookup. reflexivity.
    + unfold batch_signals.
      rewrite bool_decide_eq_true_2 by (simpl; set_solver).
      vm_compute. reflexivity.
Qed.

Lemma outcome_unflagged s :
  phone_repeated s = false -> email_repeated s = false ->
  exact_duplicate s = false ->
  (fraud_score (outcome s) <= 40)%Z
  /\ is_fraudulent (outcome s) = false
  /\ classification (outcome s) <> "FRAUDULENT".
Proof.
  intros Hp He Hd.
  pose proof (for_all_signals_true
                (fun s => phone_repeated s || email_repeated s
                          || exact_duplicate s
                          || ((fraud_score (outcome s) <=? 40)%Z
                              && negb (is_fraudulent (outcome s))
                              && negb (String.eqb (classification (outcome s))
                                         "FRAUDULENT")))
                eq_refl s) as H.
  cbv beta in H. rewrite Hp, He, Hd in H. cbn [orb] in H.
  rewrite !andb_true_iff, !negb_true_iff in H. destruct H as [[H1 H2] H3].
  apply Z.leb_le in H1. apply String.eqb_neq in H3. auto.
Qed.

(** X8: a lead scored by a fresh scorer, such as the first lead of a
    batch, gets at most 40 points and is never classified FRAUDULENT,
    whatever its fields are. *)
Theorem fresh_scorer_never_fraudulent (md5_hexdigest : string -> string)
  (lead : gmap string string) :
  let r := (score_lead md5_hexdigest new_tracker lead).1 in
  (fraud_score r <= 40)%Z
  /\ is_fraudulent r = false
  /\ classification r <> "FRAUDULENT".
Proof.
  intros r. subst r. rewrite score_lead_outcome.
  destruct (fresh_tracker_no_flags md5_hexdigest lead) as [Hrep Hdup].
  apply outcome_unflagged.
  - unfold signals_of, repeat_flags. cbn [phone_repeated]. rewrite Hrep.
    reflexivity.
  - unfold signals_of, repeat_flags. cbn [email_repeated]. rewrite Hrep.
    reflexivity.
  - unfold signals_of, duplicate_flag. cbn [exact_duplicate]. exact Hdup.
Qed.

Lemma has_reason_In reason r :
  has_reason reason r = true <-> In reason (result_reasons r).
Proof.
  unfold has_reason. rewrite existsb_exists. split.
  - intros (x & Hin & Heq). apply String.eqb_eq in Heq. subst. exact Hin.
  - intros Hin. exists reason. split; [exact Hin | apply String.eqb_refl].
Qed.

Lemma truthy_true (s : string) : truthy s = true <-> s <> "".
Proof. destruct s; simpl; split; congruence. Qed.

Lemma outcome_excess s :
  let lone_name :=
    negb (name_present s) && email_present s && phone_present s in
  has_reason "Missing critical fields" (outcome s) = lone_name
  /\ fraud_score (outcome s)
     = (breakdown_sum (outcome s) + if lone_name then 10 else 0)%Z
  /\ geographic (result_breakdown (outcome s)) = 0%Z
  /\ timing (result_breakdown (outcome s)) = 0%Z.
Proof.
  cbv zeta.
  pose proof (for_all_signals_true
                (fun s =>
                   let lone_name :=
                     negb (name_present s) && email_present s
                     && phone_present s in
                   Bool.eqb (has_reason "Missing critical fields" (outcome s))
                     lone_name
                   && (fraud_score (outcome s)
                       =? breakdown_sum (outcome s)
                          + if lone_name then 10 else 0)%Z
                   && (geographic (result_breakdown (outcome s)) =? 0)%Z
                   && (timing (result_breakdown (outcome s)) =? 0)%Z)
                eq_refl s) as H.
  cbv beta zeta in H. rewrite !andb_true_iff in H.
  destruct H as [[[H1 H2] H3] H4].
  apply Bool.eqb_prop in H1. apply Z.eqb_eq in H2, H3, H4. auto.
Qed.

(** X9: the award "Missing critical fields" is made exactly for the leads
    whose name is missing while email and phone are present; for exactly
    those leads [fraud_score] exceeds the sum of the contact, duplicate
    and quality breakdown values, by 10, and for all others the two are
    equal; the geographic and timing entries are always 0. *)
Theorem missing_critical_fields_exactly (md5_hexdigest : string -> string)
  (self : tracker) (lead : gmap string string) :
  let r := (score_lead md5_hexdigest self lead).1 in
  let lone_name :=
    get lead "name" = "" /\ get lead "email" <> "" /\ get lead "phone" <> "" in
  (In "Missing critical fields" (result_reasons r) <-> lone_name)
  /\ (lone_name -> fraud_score r = (breakdown_sum r + 10)%Z)
  /\ (~ lone_name -> fraud_score r = breakdown_sum r)
  /\ geographic (result_breakdown r) = 0%Z
  /\ timing (result_breakdown r) = 0%Z.
Proof.
  intros r lone_name. subst r. rewrite score_lead_outcome.
  set (s := signals_of md5_hexdigest self lead).
  destruct (outcome_excess s) as (Hr & Hs & Hg & Ht).
  assert (Hlone : negb (name_present s) && email_present s && phone_present s
                  = true <-> lone_name).
  { unfold lone_name, s, signals_of.
    cbn [name_present email_present phone_present].
    rewrite !andb_true_iff, negb_true_iff, truthy_false, !truthy_true.
    tauto. }
  split; [split|split; [|split; [|split; assumption]]].
  - intros Hin. apply Hlone. rewrite <- Hr. apply has_reason_In, Hin.
  - intros Hl. apply has_reason_In. rewrite Hr. apply Hlone, Hl.
  - intros Hl. apply Hlone in Hl. rewrite Hl in Hs. exact Hs.
  - intros Hl. rewrite Hs.
    destruct (negb (name_present s) && email_present s && phone_present s).
    + exfalso. apply Hl, Hlone. reflexivity.
    + lia.
Qed.

Lemma run_batch_length {A : Type}
  (method : tracker -> gmap string string -> A * tracker) self leads :
  length (run_batch method self leads).1 = length leads.
Proof.
  revert self. induction leads as [|lead rest IH]; intros self;
    [reflexivity|].
  rewrite run_batch_cons. cbn [fst length]. rewrite IH. reflexivity.
Qed.

(** X10: after a batch has been scored in order by a fresh scorer there is
    one result per lead, each phone and email counter holds the number of
    leads of the batch carrying that value, and the set of hashes holds
    exactly the hashes of the leads of the batch. *)
Theorem score_all_final_tracker (md5_hexdigest : string -> string)
  (leads : list (gmap string string)) :
  let run := score_all md5_hexdigest new_tracker leads in
  length run.1 = length leads
  /\ (forall lead : gmap string string,
        count_of (seen_phones run.2) (get lead "phone")
        = occurrences "phone" lead leads
        /\ count_of (seen_emails run.2) (get lead "email")
           = occurrences "email" lead leads)
  /\ (forall h, h ∈ seen_hashes run.2
                <-> exists lead, lead ∈ leads
                                 /\ h = lead_hash md5_hexdigest lead).
Proof.
  cbv zeta. unfold score_all. split; [apply run_batch_length|]. split.
  - intros lead.
    destruct (score_all_tracker md5_hexdigest new_tracker leads lead)
      as (Hp & He & _).
    rewrite Hp, He. split; reflexivity.
  - intros h.
    destruct (score_all_tracker md5_hexdigest new_tracker leads ∅)
      as (_ & _ & ->).
    cbn [new_tracker seen_hashes].
    rewrite elem_of_union, elem_of_list_to_set, list_elem_of_fmap.
    split.
    + intros [H|(lead & Hh & Hin)]; [set_solver | eauto].
    + intros (lead & Hin & Hh). right. eauto.
Qed.

Lemma outcome_flag_reasons s :
  has_reason "Phone number repeated 3+ times" (outcome s) = phone_repeated s
  /\ has_reason "Email repeated 3+ times" (outcome s) = email_repeated s
  /\ has_reason "Exact duplicate detected" (outcome s) = exact_duplicate s.
Proof.
  pose proof (for_all_signals_true
                (fun s =>
                   Bool.eqb (has_reason "Phone number repeated 3+ times"
                               (outcome s)) (phone_repeated s)
                   && Bool.eqb (has_reason "Email repeated 3+ times"
                                  (outcome s)) (email_repeated s)
                   && Bool.eqb (has_reason "Exact duplicate detected"
                                  (outcome s)) (exact_duplicate s))
                eq_refl s) as H.
  cbv beta in H. rewrite !andb_true_iff in H. destruct H as [[H1 H2] H3].
  apply Bool.eqb_prop in H1, H2, H3. auto.
Qed.

(** X11: in a batch scored in order by a fresh scorer, the result of lead
    [k] carries the reason "Phone number repeated 3+ times" exactly when
    at least three leads up to and including [k] have its phone value,
    likewise for the email, and the reason "Exact duplicate detected"
    exactly when an earlier lead has the same fingerprint hash. *)
Theorem score_all_flag_reasons (md5_hexdigest : string -> string)
  (leads : list (gmap string string)) (k : nat) (lead : gmap string string) :
  leads !! k = Some lead ->
  exists r,
    (score_all md5_hexdigest new_tracker leads).1 !! k = Some r
    /\ (In "Phone number repeated 3+ times" (result_reasons r)
        <-> (3 <= occurrences "phone" lead (take (S k) leads))%nat)
    /\ (In "Email repeated 3+ times" (result_reasons r)
        <-> (3 <= occurrences "email" lead (take (S k) leads))%nat)
    /\ (In "Exact duplicate detected" (result_reasons r)
        <-> exists j earlier,
              (j < k)%nat /\ leads !! j = Some earlier
              /\ lead_hash md5_hexdigest earlier
                 = lead_hash md5_hexdigest lead).
Proof.
  intros Hk. eexists. split; [apply score_all_lookup, Hk|].
  destruct (outcome_flag_reasons (batch_signals md5_hexdigest leads k lead))
    as (Hp & He & Hd).
  rewrite <- !has_reason_In, Hp, He, Hd.
  unfold batch_signals.
  cbn [phone_repeated email_repeated exact_duplicate].
  rewrite !Nat.leb_le, bool_decide_eq_true, hash_among_earlier.
  repeat split; auto.
Qed.

Lemma score_all_flag_reasons_witness :
  exists r,
    (score_all plain_digest new_tracker [john; mary; john; john]).1 !! 3%nat
    = Some r
    /\ result_reasons r
       = ["Phone number repeated 3+ times"; "Email repeated 3+ times";
          "Exact duplicate detected"].
Proof.
  destruct (score_all_flag_reasons plain_digest [john; mary; john; john]
              3 john eq_refl) as (r & Hr & _).
  exists r. split; [exact Hr|].
  vm_compute in Hr. injection Hr as <-. reflexivity.
Defined.

(** ** Counting duplicates *)

Lemma count_true_cons b flags :
  count_true (b :: flags) = ((if b then 1 else 0) + count_true flags)%nat.
Proof. unfold count_true. destruct b; reflexivity. Qed.

Lemma duplicate_count_from (md5_hexdigest : string -> string) self leads :
  let run := run_batch (find_exact_duplicate md5_hexdigest) self leads in
  (count_true run.1 + size (seen_hashes run.2)
   = length leads + size (seen_hashes self))%nat.
Proof.
  cbv zeta. revert self. induction leads as [|lead rest IH]; intros self.
  - reflexivity.
  - rewrite run_batch_cons. cbn [fst snd length].
    rewrite count_true_cons.
    specialize (IH (find_exact_duplicate md5_hexdigest self lead).2).
    destruct (find_exact_duplicate_spec md5_hexdigest self lead)
      as [Hflag Hset].
    rewrite Hflag. rewrite Hset in IH.
    case_bool_decide as Hin.
    + replace (seen_hashes self ∪ {[lead_hash md5_hexdigest lead]})
        with (seen_hashes self) in IH by set_solver.
      lia.
    + rewrite size_union, size_singleton in IH by set_solver. lia.
Qed.

(** X12: the number of leads of a batch that [find_exact_duplicate]
    flags, together with the number of distinct fingerprint hashes in the
    batch, is the number of leads; so the number of flagged leads does
    not depend on the order of the batch. *)
Theorem duplicate_count (md5_hexdigest : string -> string)
  (leads : list (gmap string string)) :
  let flags :=
    (run_batch (find_exact_duplicate md5_hexdigest) new_tracker leads).1 in
  (count_true flags
   + size (list_to_set (lead_hash md5_hexdigest <$> leads) : gset string)
   = length leads)%nat
  /\ forall leads',
       leads ≡ₚ leads' ->
       count_true
         (run_batch (find_exact_duplicate md5_hexdigest) new_tracker leads').1
       = count_true flags.
Proof.
  assert (Hcount : forall ls,
             (count_true
                (run_batch (find_exact_duplicate md5_hexdigest) new_tracker
                   ls).1
              + size (list_to_set (lead_hash md5_hexdigest <$> ls)
                      : gset string)
              = length ls)%nat).
  { intros ls.
    pose proof (duplicate_count_from md5_hexdigest new_tracker ls) as H.
    cbv zeta in H. rewrite seen_hashes_run_batch in H.
    cbn [new_tracker seen_hashes] in H.
    rewrite size_empty, union_empty_l_L in H. lia. }
  cbv zeta. split; [apply Hcount|].
  intros leads' Hperm.
  pose proof (Hcount leads) as H1. pose proof (Hcount leads') as H2.
  assert (Hset : (list_to_set (lead_hash md5_hexdigest <$> leads')
                  : gset string)
                 = list_to_set (lead_hash md5_hexdigest <$> leads)).
  { apply list_to_set_perm_L, fmap_Permutation. symmetry. exact Hperm. }
  rewrite Hset in H2. rewrite <- (Permutation_length Hperm) in H2. lia.
Qed.

Example duplicate_count_reordered :
  (run_batch (find_exact_duplicate plain_digest) new_tracker
     [john; mary; john]).1 = [false; false; true]
  /\ (run_batch (find_exact_duplicate plain_digest) new_tracker
        [john; john; mary]).1 = [false; true; false].
Proof. split; vm_compute; reflexivity. Qed.

(** ** More on the batch refund *)

Lemma filter_length_Permutation {A : Type} (f : A -> bool) (l l' : list A) :
  l ≡ₚ l' -> length (List.filter f l) = length (List.filter f l').
Proof.
  induction 1 as [|x l l' _ IH|x y l|l l' l'' _ IH1 _ IH2]; simpl.
  - reflexivity.
  - destruct (f x); simpl; rewrite IH; reflexivity.
  - destruct (f x), (f y); reflexivity.
  - rewrite IH1. exact IH2.
Qed.

(** X13: [calculate_batch_refund] does not depend on the order of the
    rows. *)
Theorem calculate_batch_refund_permutation (leads_df leads_df' : list ScoreResult) :
  leads_df ≡ₚ leads_df' ->
  calculate_batch_refund leads_df = calculate_batch_refund leads_df'.
Proof.
  intros Hperm. unfold calculate_batch_refund.
  rewrite (filter_length_Permutation is_fraudulent _ _ Hperm).
  rewrite (Permutation_length Hperm). reflexivity.
Qed.

Lemma calculate_batch_refund_permutation_witness :
  calculate_batch_refund
    (score_all plain_digest new_tracker [john; mary]).1
  = calculate_batch_refund
      (rev (score_all plain_digest new_tracker [john; mary]).1).
Proof.
  apply calculate_batch_refund_permutation.
  vm_compute. apply perm_swap.
Defined.

Lemma ratio_bounds (f t : Z) :
  (0 <= f <= t)%Z -> (0 < t)%Z ->
  (0 <= inject_Z f / inject_Z t * 100)%Q
  /\ (inject_Z f / inject_Z t * 100 <= 100)%Q.
Proof.
  intros [Hf Hft] Ht.
  assert (Ht' : (0 < inject_Z t)%Q)
    by (change 0%Q with (inject_Z 0); rewrite <- Zlt_Qlt; exact Ht).
  assert (H0 : (0 <= inject_Z f / inject_Z t)%Q).
  { apply Qle_shift_div_l; [exact Ht'|].
    rewrite Qmult_0_l. change 0%Q with (inject_Z 0).
    rewrite <- Zle_Qle. exact Hf. }
  assert (H1 : (inject_Z f / inject_Z t <= 1)%Q).
  { apply Qle_shift_div_r; [exact Ht'|].
    rewrite Qmult_1_l. rewrite <- Zle_Qle. exact Hft. }
  split.
  - apply Qmult_le_0_compat; [exact H0 | discriminate].
  - apply Qle_trans with (1 * 100)%Q; [|discriminate].
    apply Qmult_le_compat_r; [exact H1 | discriminate].
Qed.

(** X14: on a non-empty batch the refund record is coherent: the
    fraudulent and the valid leads add up to the total, which is the
    number of rows; the fraud percentage lies between 0 and 100; and the
    refund percentage is 0, or 100, or the fraud percentage itself when
    that lies from 15 up to 25. *)
Theorem calculate_batch_refund_record (leads_df : list ScoreResult) :
  leads_df <> [] ->
  exists info,
    calculate_batch_refund leads_df = inr info
    /\ total_leads info = Z.of_nat (length leads_df)
    /\ (0 <= fraudulent_leads info <= total_leads info)%Z
    /\ (fraudulent_leads info + valid_leads info = total_leads info)%Z
    /\ (0 <= fraud_percentage info)%Q /\ (fraud_percentage info <= 100)%Q
    /\ ((refund_percentage info == 0)%Q
        \/ (refund_percentage info == 100)%Q
        \/ (refund_percentage info = fraud_percentage info
            /\ (15 <= fraud_percentage info)%Q
            /\ (fraud_percentage info < 25)%Q)).
Proof.
  intros Hne.
  assert (Hlen : (0 < Z.of_nat (length leads_df))%Z).
  { destruct leads_df; [contradiction | simpl; lia]. }
  assert (Hf : (0 <= Z.of_nat (length (List.filter is_fraudulent leads_df))
                <= Z.of_nat (length leads_df))%Z).
  { pose proof (List.filter_length_le is_fraudulent leads_df). lia. }
  destruct (ratio_bounds _ _ Hf Hlen) as [Hlo Hhi].
  unfold calculate_batch_refund.
  rewrite truediv_nonzero by lia.
  set (fp := (inject_Z _ / inject_Z _ * 100)%Q) in *.
  destruct (Qle_bool 25 fp) eqn:H25; [|destruct (Qle_bool 15 fp) eqn:H15];
    eexists; (split; [reflexivity|]); cbn - [Z.of_nat]; fold fp;
    repeat (split; [first [reflexivity | lia | assumption]|]).
  - right. left. reflexivity.
  - right. right. apply Qle_bool_iff in H15. apply Qle_bool_false in H25.
    auto.
  - left. reflexivity.
Qed.

Lemma calculate_batch_refund_record_witness :
  exists info,
    calculate_batch_refund (score_all plain_digest new_tracker batch10).1
    = inr info
    /\ total_leads info = 10%Z.
Proof.
  destruct (calculate_batch_refund_record
              (score_all plain_digest new_tracker batch10).1)
    as (info & Hi & Ht & _).
  - vm_compute. discriminate.
  - exists info. split; [exact Hi|]. rewrite Ht. reflexivity.
Defined.

(** X15: the exit status of [main] agrees with the refund decision:
    2 goes with a full refund, 1 with a partial refund, 0 with none. *)
Theorem exit_status_refund_type (leads_df : list ScoreResult)
  (info : RefundInfo) :
  calculate_batch_refund leads_df = inr info ->
  (exit_status info = 2%Z /\ refund_type info = "FULL REFUND")
  \/ (exit_status info = 1%Z /\ refund_type info = "PARTIAL REFUND")
  \/ (exit_status info = 0%Z /\ refund_type info = "NO REFUND").
Proof.
  unfold calculate_batch_refund, exit_status.
  destruct (truediv _ _) as [e|ratio]; [discriminate|].
  destruct (Qle_bool 25 (ratio * 100)) eqn:H25;
    [|destruct (Qle_bool 15 (ratio * 100)) eqn:H15];
    intros [= <-]; simpl; rewrite ?H25, ?H15; auto.
Qed.

Lemma exit_status_refund_type_witness :
  exists info,
    calculate_batch_refund (score_all plain_digest new_tracker batch10).1
    = inr info
    /\ exit_status info = 1%Z /\ refund_type info = "PARTIAL REFUND".
Proof.
  destruct (calculate_batch_refund
              (score_all plain_digest new_tracker batch10).1)
    as [e|info] eqn:Hc.
  - vm_compute in Hc. discriminate Hc.
  - exists info. split; [reflexivity|].
    destruct (exit_status_refund_type _ _ Hc) as [[_ H]|[H|[_ H]]];
      [exfalso | exact H | exfalso];
      vm_compute in Hc; injection Hc as <-; discriminate H.
Defined.

(** ** Batches without repetitions *)

Lemma occurrences_take_le key (lead : gmap string string) leads n :
  (occurrences key lead (take n leads) <= occurrences key lead leads)%nat.
Proof.
  unfold occurrences. rewrite <- (take_drop n leads) at 2.
  rewrite List.filter_app, List.length_app. lia.
Qed.

Lemma filter_none {A : Type} (f : A -> bool) (l : list A) :
  Forall (fun x => f x = false) l -> List.filter f l = [].
Proof.
  induction 1 as [|x l Hx _ IH]; [reflexivity|].
  simpl. rewrite Hx. exact IH.
Qed.

Lemma no_fraud_no_refund (leads_df : list ScoreResult) :
  leads_df <> [] ->
  Forall (fun r => is_fraudulent r = false) leads_df ->
  exists info,
    calculate_batch_refund leads_df = inr info
    /\ fraudulent_leads info = 0%Z
    /\ refund_type info = "NO REFUND"
    /\ (refund_percentage info == 0)%Q.
Proof.
  intros Hne Hall. unfold calculate_batch_refund.
  rewrite (filter_none _ _ Hall).
  rewrite truediv_nonzero by (destruct leads_df; [contradiction|simpl; lia]).
  set (fp := (inject_Z _ / inject_Z _ * 100)%Q).
  assert (Hfp : (fp == 0)%Q).
  { unfold fp, Qdiv. simpl inject_Z. rewrite !Qmult_0_l. reflexivity. }
  assert (H25 : Qle_bool 25 fp = false).
  { apply not_true_is_false. intros H. apply Qle_bool_iff in H.
    rewrite Hfp in H. apply H. reflexivity. }
  assert (H15 : Qle_bool 15 fp = false).
  { apply not_true_is_false. intros H. apply Qle_bool_iff in H.
    rewrite Hfp in H. apply H. reflexivity. }
  rewrite H25, H15. eexists. split; [reflexivity|].
  repeat split; reflexivity.
Qed.

(** X16: a non-empty batch in which no phone and no email value occurs
    more than twice and no two leads have the same fingerprint hash has
    no fraudulent lead, however bad the fields of its leads are, and gets
    no refund. *)
Theorem unrepeated_batch_no_refund (md5_hexdigest : string -> string)
  (leads : list (gmap string string)) :
  leads <> [] ->
  (forall lead, lead ∈ leads ->
     (occurrences "phone" lead leads <= 2)%nat
     /\ (occurrences "email" lead leads <= 2)%nat) ->
  NoDup (lead_hash md5_hexdigest <$> leads) ->
  let results := (score_all md5_hexdigest new_tracker leads).1 in
  Forall (fun r => is_fraudulent r = false /\ (fraud_score r <= 40)%Z) results
  /\ exists info,
       calculate_batch_refund results = inr info
       /\ fraudulent_leads info = 0%Z
       /\ refund_type info = "NO REFUND"
       /\ (refund_percentage info == 0)%Q.
Proof.
  intros Hne Hocc Hnodup results.
  assert (Hlen : length results = length leads)
    by apply run_batch_length.
  assert (Hall : Forall (fun r => is_fraudulent r = false
                                  /\ (fraud_score r <= 40)%Z) results).
  { apply Forall_lookup. intros k r Hr.
    assert (Hk : is_Some (leads !! k)).
    { apply lookup_lt_is_Some_2. rewrite <- Hlen.
      eapply lookup_lt_Some, Hr. }
    destruct Hk as [lead Hk].
    unfold results in Hr.
    rewrite (score_all_lookup md5_hexdigest leads k lead Hk) in Hr.
    injection Hr as <-.
    destruct (Hocc lead (list_elem_of_lookup_2 _ _ _ Hk)) as [Hp He].
    pose proof (occurrences_take_le "phone" lead leads (S k)) as Hp'.
    pose proof (occurrences_take_le "email" lead leads (S k)) as He'.
    destruct (outcome_unflagged (batch_signals md5_hexdigest leads k lead))
      as (Hscore & Hfraud & _).
    - cbn [batch_signals phone_repeated]. apply Nat.leb_gt. lia.
    - cbn [batch_signals email_repeated]. apply Nat.leb_gt. lia.
    - cbn [batch_signals exact_duplicate]. apply bool_decide_eq_false_2.
      rewrite hash_among_earlier.
      intros (j & earlier & Hlt & Hj & Heq).
      assert (j = k); [|lia].
      apply (NoDup_lookup _ _ _ (lead_hash md5_hexdigest lead) Hnodup).
      + rewrite list_lookup_fmap, Hj. simpl. rewrite Heq. reflexivity.
      + rewrite list_lookup_fmap, Hk. reflexivity.
    - split; assumption. }
  split; [exact Hall|].
  apply no_fraud_no_refund.
  - intros Heq. rewrite Heq in Hlen. destruct leads; [contradiction|].
    discriminate.
  - eapply Forall_impl; [exact Hall|]. intros r [H _]. exact H.
Qed.

Lemma unrepeated_batch_no_refund_witness :
  exists info,
    calculate_batch_refund
      (score_all plain_digest new_tracker [worst_lead; john; mary]).1
    = inr info
    /\ refund_type info = "NO REFUND".
Proof.
  destruct (unrepeated_batch_no_refund plain_digest [worst_lead; john; mary])
    as (_ & info & Hi & _ & Ht & _).
  - discriminate.
  - intros lead Hin.
    apply list_elem_of_In in Hin.
    destruct Hin as [<-|[<-|[<-|[]]]]; vm_compute; split; lia.
  - vm_compute. repeat constructor; rewrite ?list_elem_of_In; simpl;
      intuition discriminate.
  - exists info. split; assumption.
Defined.

(** ** The indicator tables and the scorer *)

Lemma outcome_tables s :
  let r := outcome s in
  forallb (fun reason => in_table category_map reason
                         && in_table points_map reason
                         && (points_per_lead reason =? award_points reason)%Z)
    (result_reasons r) = true
  /\ contact (result_breakdown r)
     = category_points "contact" (result_reasons r)
  /\ duplicate (result_breakdown r)
     = category_points "duplicate" (result_reasons r)
  /\ quality (result_breakdown r)
     = Z.min (category_points "quality" (result_reasons r)) 10.
Proof.
  cbv zeta.
  pose proof (for_all_signals_true
                (fun s =>
                   let r := outcome s in
                   forallb (fun reason =>
                              in_table category_map reason
                              && in_table points_map reason
                              && (points_per_lead reason
                                  =? award_points reason)%Z)
                     (result_reasons r)
                   && (contact (result_breakdown r)
                       =? category_points "contact" (result_reasons r))%Z
                   && (duplicate (result_breakdown r)
                       =? category_points "duplicate" (result_reasons r))%Z
                   && (quality (result_breakdown r)
                       =? Z.min (category_points "quality"
                                   (result_reasons r)) 10)%Z)
                ltac:(vm_compute; reflexivity) s) as H.
  cbv beta zeta in H. rewrite !andb_true_iff in H.
  destruct H as [[[H1 H2] H3] H4].
  apply Z.eqb_eq in H2, H3, H4. auto.
Qed.

(** X17: the tables of [_generate_fraud_indicators] agree with
    [score_lead]: every reason [score_lead] records is a key of both
    tables, its entry in the points table is the number of points
    awarded with it, and the points the tables attribute to the contact,
    duplicate and quality reasons of a result are its contact and
    duplicate breakdown values and, capped at 10, its quality value. *)
Theorem indicator_tables_agree (md5_hexdigest : string -> string)
  (self : tracker) (lead : gmap string string) :
  let r := (score_lead md5_hexdigest self lead).1 in
  (forall reason, In reason (result_reasons r) ->
     is_Some (category_map !! reason)
     /\ points_map !! reason = Some (award_points reason))
  /\ contact (result_breakdown r)
     = category_points "contact" (result_reasons r)
  /\ duplicate (result_breakdown r)
     = category_points "duplicate" (result_reasons r)
  /\ quality (result_breakdown r)
     = Z.min (category_points "quality" (result_reasons r)) 10.
Proof.
  intros r. subst r. rewrite score_lead_outcome.
  destruct (outcome_tables (signals_of md5_hexdigest self lead))
    as (Hall & Hc & Hd & Hq).
  split; [|auto].
  intros reason Hin. rewrite forallb_forall in Hall.
  specialize (Hall reason Hin). rewrite !andb_true_iff in Hall.
  destruct Hall as [[Hcat Hpts] Heq]. apply Z.eqb_eq in Heq.
  unfold in_table in Hcat, Hpts. unfold points_per_lead in Heq.
  destruct (category_map !! reason); [|discriminate].
  destruct (points_map !! reason); [|discriminate].
  simpl in Heq. subst. eauto.
Qed.

(** ** The reasons column *)

Lemma split_from_plain x :
  any (Ascii.eqb ",") x = false -> split_from ", " x 0 = [x].
Proof.
  induction x as [|c x IH]; [reflexivity|].
  cbn [any]. intros H. apply orb_false_elim in H as [Hc Hx].
  cbn [split_from startswith]. rewrite Hc. cbn [andb].
  rewrite (IH Hx). reflexivity.
Qed.

Lemma split_from_piece x rest :
  any (Ascii.eqb ",") x = false ->
  split_from ", " (x ++ ", " ++ rest) 0 = x :: split_from ", " rest 0.
Proof.
  induction x as [|c x IH].
  - intros _. reflexivity.
  - cbn [any]. intros H. apply orb_false_elim in H as [Hc Hx].
    rewrite append_String. cbn [split_from startswith]. rewrite Hc.
    cbn [andb]. rewrite (IH Hx). reflexivity.
Qed.

Lemma split_str_join rs :
  rs <> [] -> Forall (fun reason => plain_reason reason = true) rs ->
  split_str ", " (join ", " rs) = rs.
Proof.
  intros Hne Hall. unfold split_str.
  induction Hall as [|x rs Hx Hall IH]; [contradiction|].
  apply andb_true_iff in Hx as [_ Hx]. apply negb_true_iff in Hx.
  destruct rs as [|y rs].
  - apply split_from_plain, Hx.
  - change (join ", " (x :: y :: rs)) with (x ++ ", " ++ join ", " (y :: rs)).
    rewrite (split_from_piece _ _ Hx), IH by discriminate. reflexivity.
Qed.

Lemma join_truthy x rs :
  truthy x = true -> truthy (join ", " (x :: rs)) = true.
Proof. destruct x; [discriminate|]. destruct rs; reflexivity. Qed.

Lemma collect_reasons_entries (results : list ScoreResult) :
  Forall (fun r => Forall (fun reason => plain_reason reason = true)
                     (result_reasons r)) results ->
  collect_reasons (map fraud_reasons_entry results)
  = concat (map result_reasons results).
Proof.
  induction 1 as [|r results Hr _ IH]; [reflexivity|].
  cbn [map collect_reasons concat]. rewrite IH.
  unfold fraud_reasons_entry.
  destruct (result_reasons r) as [|x rs] eqn:Hrs; [reflexivity|].
  assert (Hx : truthy x = true).
  { inversion Hr as [|? ? Hx _]; subst.
    apply andb_true_iff in Hx as [Hx _]. exact Hx. }
  rewrite (join_truthy x rs Hx).
  rewrite split_str_join by (assumption || discriminate). reflexivity.
Qed.

Lemma outcome_plain_reasons s :
  Forall (fun reason => plain_reason reason = true)
    (result_reasons (outcome s)).
Proof.
  apply List.Forall_forall. apply forallb_forall.
  exact (for_all_signals_true
           (fun s => forallb plain_reason (result_reasons (outcome s)))
           ltac:(vm_compute; reflexivity) s).
Qed.

Lemma run_batch_Forall {A : Type}
  (method : tracker -> gmap string string -> A * tracker) (P : A -> Prop) :
  (forall self lead, P (method self lead).1) ->
  forall self leads, Forall P (run_batch method self leads).1.
Proof.
  intros HP self leads. revert self.
  induction leads as [|lead rest IH]; intros self.
  - constructor.
  - rewrite run_batch_cons. cbn [fst]. constructor; [apply HP | apply IH].
Qed.

(** X18: writing the reasons of each result into the [fraud_reasons]
    column and collecting them again with [split(', ')] gives back the
    reasons of all results in order: no reason of [score_lead] contains
    a comma or is empty, and results without reasons contribute none. *)
Theorem reasons_column_round_trip (md5_hexdigest : string -> string)
  (self : tracker) (leads : list (gmap string string)) :
  let results := (run_batch (score_lead md5_hexdigest) self leads).1 in
  collect_reasons (map fraud_reasons_entry results)
  = concat (map result_reasons results).
Proof.
  cbv zeta. apply collect_reasons_entries.
  apply run_batch_Forall. intros self' lead.
  rewrite score_lead_outcome. apply outcome_plain_reasons.
Qed.

Example reasons_column_example :
  map fraud_reasons_entry
    (score_all plain_digest new_tracker [john; worst_lead]).1
  = [""; "Invalid phone format, Invalid email format, Invalid or gibberish name, Missing critical fields"].
Proof. vm_compute. reflexivity. Qed.

(** ** The refund amount *)

Lemma Qeq_bool_false_pos (x : Q) : (0 < x)%Q -> Qeq_bool x 0 = false.
Proof.
  intros Hx. apply not_true_is_false. intros H.
  apply Qeq_bool_iff in H. rewrite H in Hx.
  exact (Qlt_irrefl 0 Hx).
Qed.

Lemma scaled_share (cost pct : Q) :
  (0 < cost)%Q -> (0 <= pct)%Q -> (pct <= 100)%Q ->
  (0 <= cost * (pct / 100))%Q /\ (cost * (pct / 100) <= cost)%Q.
Proof.
  intros Hc H0 H100.
  assert (Hs0 : (0 <= pct / 100)%Q)
    by (apply Qle_shift_div_l; [reflexivity | rewrite Qmult_0_l; exact H0]).
  assert (Hs1 : (pct / 100 <= 1)%Q)
    by (apply Qle_shift_div_r; [reflexivity | rewrite Qmult_1_l; exact H100]).
  split.
  - apply Qmult_le_0_compat; [apply Qlt_le_weak, Hc | exact Hs0].
  - apply Qle_trans with (cost * 1)%Q.
    + apply Qmult_le_l; assumption.
    + rewrite Qmult_1_r. apply Qle_refl.
Qed.

(** X19: with a positive cost per lead the refund amount of
    [process_batch] lies between 0 and the cost of the batch; it is the
    whole cost for a full refund, nothing for no refund, and the fraud
    percentage of the cost for a partial refund. *)
Theorem refund_amount_share (leads_df : list ScoreResult) (info : RefundInfo)
  (cost_per_lead : Q) :
  calculate_batch_refund leads_df = inr info ->
  (0 < cost_per_lead)%Q ->
  let batch_cost :=
    batch_cost_of (Z.of_nat (length leads_df)) (Some cost_per_lead) in
  let cost := (inject_Z (Z.of_nat (length leads_df)) * cost_per_lead)%Q in
  batch_cost = Some cost
  /\ (0 <= refund_amount_of batch_cost info)%Q
  /\ (refund_amount_of batch_cost info <= cost)%Q
  /\ (refund_type info = "FULL REFUND" ->
      (refund_amount_of batch_cost info == cost)%Q)
  /\ (refund_type info = "PARTIAL REFUND" ->
      (refund_amount_of batch_cost info
       == cost * (fraud_percentage info / 100))%Q)
  /\ (refund_type info = "NO REFUND" ->
      (refund_amount_of batch_cost info == 0)%Q).
Proof.
  intros Hcalc Hc batch_cost cost.
  assert (Hne : leads_df <> []).
  { intros ->. discriminate Hcalc. }
  assert (Hlen : (0 < Z.of_nat (length leads_df))%Z)
    by (destruct leads_df; [contradiction | simpl; lia]).
  assert (Hcost : (0 < cost)%Q).
  { unfold cost. apply Qmult_lt_0_compat; [|exact Hc].
    change 0%Q with (inject_Z 0). rewrite <- Zlt_Qlt. exact Hlen. }
  assert (Hbc : batch_cost = Some cost).
  { unfold batch_cost, batch_cost_of.
    rewrite (Qeq_bool_false_pos _ Hc). reflexivity. }
  rewrite Hbc. unfold refund_amount_of.
  rewrite (Qeq_bool_false_pos _ Hcost).
  split; [reflexivity|].
  assert (Hf : (0 <= Z.of_nat (length (List.filter is_fraudulent leads_df))
                <= Z.of_nat (length leads_df))%Z).
  { pose proof (List.filter_length_le is_fraudulent leads_df). lia. }
  destruct (ratio_bounds _ _ Hf Hlen) as [Hlo Hhi].
  unfold calculate_batch_refund in Hcalc.
  rewrite truediv_nonzero in Hcalc by lia.
  set (fp := (inject_Z _ / inject_Z _ * 100)%Q) in *.
  destruct (Qle_bool 25 fp) eqn:H25; [|destruct (Qle_bool 15 fp) eqn:H15];
    injection Hcalc as <-;
    cbn [refund_percentage refund_type fraud_percentage].
  - destruct (scaled_share cost 100 Hcost) as [Ha Hb]; try discriminate.
    repeat split; try assumption; try discriminate.
    intros _. field.
  - destruct (scaled_share cost fp Hcost Hlo Hhi) as [Ha Hb].
    repeat split; try assumption; discriminate.
  - destruct (scaled_share cost 0 Hcost) as [Ha Hb]; try discriminate.
    repeat split; try assumption; try discriminate.
    intros _. field.
Qed.

Lemma refund_amount_share_witness :
  exists info,
    calculate_batch_refund (score_all plain_digest new_tracker batch10).1
    = inr info
    /\ (refund_amount_of (batch_cost_of 10 (Some 5)) info == 10)%Q.
Proof.
  destruct (calculate_batch_refund
              (score_all plain_digest new_tracker batch10).1)
    as [e|info] eqn:Hc.
  - vm_compute in Hc. discriminate Hc.
  - exists info. split; [reflexivity|].
    destruct (refund_amount_share _ info 5 Hc eq_refl)
      as (_ & _ & _ & _ & Hpartial & _).
    vm_compute in Hc. injection Hc as <-.
    rewrite (Hpartial eq_refl). reflexivity.
Defined.

(** ** The refund summary *)

Lemma summary_step_counts summary batch :
  total_batches (summary_step summary batch) = total_batches summary
  /\ counted (summary_step summary batch)
     = (counted summary + if known_status batch then 1 else 0)%Z.
Proof.
  unfold summary_step, counted, known_status.
  destruct (row_refund_status batch) as [status|]; [|simpl; split; lia].
  destruct (String.eqb_spec status "FULL REFUND") as [->|H1];
    [simpl; split; lia|].
  destruct (String.eqb_spec status "PARTIAL REFUND") as [->|H2];
    [simpl; split; lia|].
  destruct (String.eqb_spec status "NO REFUND") as [->|H3];
    [simpl; split; lia|].
  cbn [orb].
  replace (match status with
           | "FULL REFUND" => _ | "PARTIAL REFUND" => _ | "NO REFUND" => _
           | _ => summary end) with summary; [simpl; split; lia|].
  clear -H1 H2 H3.
  repeat (let c := fresh "c" in
          destruct status as [|c status];
          [try reflexivity; congruence|];
          destruct c as [[] [] [] [] [] [] [] []]; try reflexivity).
  all: congruence.
Qed.

Lemma fold_summary_counts data summary :
  total_batches (fold_left summary_step data summary) = total_batches summary
  /\ counted (fold_left summary_step data summary)
     = (counted summary
        + Z.of_nat (length (List.filter known_status data)))%Z.
Proof.
  revert summary. induction data as [|batch rest IH]; intros summary.
  - simpl. split; lia.
  - cbn [fold_left List.filter].
    destruct (IH (summary_step summary batch)) as [-> ->].
    destruct (summary_step_counts summary batch) as [-> ->].
    destruct (known_status batch); cbn [length]; split; lia.
Qed.

Lemma refund_type_known (leads_df : list ScoreResult) (info : RefundInfo)
  (batch_cost : option Q) :
  calculate_batch_refund leads_df = inr info ->
  known_status (batch_row_of batch_cost info) = true.
Proof.
  unfold calculate_batch_refund, known_status, batch_row_of.
  destruct (truediv _ _) as [e|ratio]; [discriminate|].
  destruct (Qle_bool 25 (ratio * 100));
    [|destruct (Qle_bool 15 (ratio * 100))];
    intros [= <-]; reflexivity.
Qed.

(** X20: [get_refund_summary] counts in its three counters exactly the
    rows whose status is one of FULL REFUND, PARTIAL REFUND and NO
    REFUND, so the counters never add up to more than [total_batches],
    the number of rows; they add up to it when every row carries what
    [process_batch] wrote from a result of [calculate_batch_refund]. *)
Theorem get_refund_summary_counts (data : list batch_row) :
  let summary := get_refund_summary data in
  total_batches summary = Z.of_nat (length data)
  /\ counted summary = Z.of_nat (length (List.filter known_status data))
  /\ (0 <= counted summary <= total_batches summary)%Z
  /\ (Forall (fun batch =>
                exists leads_df info batch_cost,
                  calculate_batch_refund leads_df = inr info
                  /\ batch = batch_row_of batch_cost info) data ->
      counted summary = total_batches summary).
Proof.
  cbv zeta. unfold get_refund_summary.
  match goal with |- context [fold_left summary_step data ?init] =>
    destruct (fold_summary_counts data init) as [Ht Hc]
  end.
  rewrite Ht, Hc. unfold counted.
  cbn [total_batches full_refunds partial_refunds no_refunds].
  pose proof (List.filter_length_le known_status data) as Hle.
  split; [reflexivity|]. split; [lia|]. split; [lia|].
  intros Hall.
  assert (Hlen : length (List.filter known_status data) = length data);
    [|lia].
  clear -Hall. induction Hall as [|batch rest Hb _ IH]; [reflexivity|].
  destruct Hb as (leads_df & info & batch_cost & Hcalc & ->).
  cbn [List.filter]. rewrite (refund_type_known _ _ batch_cost Hcalc).
  cbn [length]. rewrite IH. reflexivity.
Qed.

Example get_refund_summary_example :
  let summary :=
    get_refund_summary
      [ BatchRow (Some "FULL REFUND") (Some 50%Q);
        BatchRow (Some "refunded") None;
        BatchRow None (Some 0%Q);
        BatchRow (Some "NO REFUND") None ] in
  total_batches summary = 4%Z /\ full_refunds summary = 1%Z
  /\ partial_refunds summary = 0%Z /\ no_refunds summary = 1%Z
  /\ (total_refund_amount summary == 50)%Q.
Proof. vm_compute. repeat split; congruence. Qed.
